(** * NEON data API client: response cache, request executor, query planner
    and location resolver

    A shallow embedding of [mcp/src/api/cache.ts] and [mcp/src/api/client.ts].
    JavaScript values are a small inductive type, objects are association
    lists in property order, the cache store is a finite map, and the
    asynchronous client code is written in a state-and-exception monad that
    also records the outbound calls and the timer waits it performs. Each
    call of the client runs alone: the ten-minute [cleanup] timer, which
    only drops entries that [get] would already treat as absent, is not
    interleaved with it. *)

From stdpp Require Import gmap strings list sorting pretty.
From Stdlib Require Import ZArith Lia.
From Stdlib Require Ascii String.

Local Open Scope string_scope.

#[local] Set Warnings "-register-all".

(** ** JavaScript values *)

(** Numbers are the integers: every number the client handles (HTTP status,
    millisecond clock, TTL, limit, offset) is an integer far below 2^53. *)
Inductive JsVal : Type :=
| JUndefined
| JNull
| JBool (b : bool)
| JNum (n : Z)
| JStr (s : string)
| JArr (elems : list JsVal)
| JObj (props : list (string * JsVal)).

(** An object is its list of own enumerable properties in property order;
    keys are pairwise distinct (see [wf_object]). *)
Abbreviation JsObject := (list (string * JsVal)).

Definition wf_object (o : JsObject) : Prop := NoDup (o.*1).

(** [ToBoolean]: what [if (v)], [!v] and [v || d] test. *)
Definition truthy (v : JsVal) : bool :=
  match v with
  | JUndefined | JNull => false
  | JBool b => b
  | JNum n => negb (n =? 0)%Z
  | JStr s => negb (String.eqb s "")
  | JArr _ | JObj _ => true
  end.

(** [String(v)] and the template literal [`${v}`]: an array joins its
    elements with a comma, where [null] and [undefined] elements print as
    the empty string. *)
Fixpoint js_toString (v : JsVal) : string :=
  match v with
  | JUndefined => "undefined"
  | JNull => "null"
  | JBool true => "true"
  | JBool false => "false"
  | JNum n => pretty n
  | JStr s => s
  | JArr elems =>
      String.concat ","
        (List.map (fun x => match x with
                            | JUndefined | JNull => ""
                            | _ => js_toString x
                            end) elems)
  | JObj _ => "[object Object]"
  end.

(** [o[k]]: the value of property [k], [undefined] when there is none. *)
Fixpoint get_prop (o : JsObject) (k : string) : JsVal :=
  match o with
  | [] => JUndefined
  | (k', v) :: o' => if decide (k' = k) then v else get_prop o' k
  end.

(** [o[k] = v]: an existing property keeps its place, a new one goes last. *)
Fixpoint set_prop (o : JsObject) (k : string) (v : JsVal) : JsObject :=
  match o with
  | [] => [(k, v)]
  | (k', v') :: o' =>
      if decide (k' = k) then (k, v) :: o' else (k', v') :: set_prop o' k v
  end.

(** [delete o[k]]. *)
Definition delete_prop (o : JsObject) (k : string) : JsObject :=
  List.filter (fun p => negb (String.eqb (fst p) k)) o.

(** [Object.keys] and [Object.entries] follow property order, which is
    insertion order for the keys used here (none is an array index). *)
Definition Object_keys (o : JsObject) : list string := o.*1.

Definition Object_entries (o : JsObject) : list (string * JsVal) := o.

(** [s.includes(t)]. *)
Fixpoint includes (s t : string) : bool :=
  String.prefix t s ||
  match s with
  | EmptyString => false
  | String _ s' => includes s' t
  end.

Definition ascii_upper (c : Ascii.ascii) : Ascii.ascii :=
  let n := Ascii.N_of_ascii c in
  if ((97 <=? n) && (n <=? 122))%N then Ascii.ascii_of_N (n - 32) else c.

Definition ascii_lower (c : Ascii.ascii) : Ascii.ascii :=
  let n := Ascii.N_of_ascii c in
  if ((65 <=? n) && (n <=? 90))%N then Ascii.ascii_of_N (n + 32) else c.

Fixpoint string_map (f : Ascii.ascii -> Ascii.ascii) (s : string) : string :=
  match s with
  | EmptyString => EmptyString
  | String c s' => String (f c) (string_map f s')
  end.

Definition toUpperCase : string -> string := string_map ascii_upper.
Definition toLowerCase : string -> string := string_map ascii_lower.

(** ** Domain resources *)

(** The fields of [Location] the client reads; the other fields of the
    interface are carried through untouched and play no role here. *)
Record Location : Type := {
  locationName : string;
  locationType : string;
  locationDescription : string;
  siteCode : string
}.

(** What the [data] member of a response body decodes to. Responses are
    taken to have the shapes the TypeScript interfaces declare: a location,
    a list of locations, or any other JSON value (which includes
    [undefined] for a missing member). [PLocation] and [PLocations] are the
    JSON object and the JSON array with the declared members; a [PJson]
    that holds an array or an object is a container of another shape. *)
Inductive Payload : Type :=
| PLocation (loc : Location)
| PLocations (locs : list Location)
| PJson (v : JsVal).

Definition payload_truthy (p : Payload) : bool :=
  match p with
  | PLocation _ | PLocations _ => true
  | PJson v => truthy v
  end.

(** ** Response cache ([cache.ts]) *)

Record CacheEntry : Type := {
  data : Payload;
  timestamp : Z;
  ttl : Z
}.

Abbreviation CacheKey := string.
Abbreviation CacheStore := (gmap string CacheEntry).

(** [x || d] for an optional number [x]. *)
Definition num_or (x : option Z) (d : Z) : Z :=
  match x with
  | Some n => if truthy (JNum n) then n else d
  | None => d
  end.

Module ApiCache.

Record t : Type := {
  cache : CacheStore;
  defaultTtl : Z
}.

(** [new ApiCache(defaultTtl?)]. *)
Definition new (defaultTtl' : option Z) : t :=
  {| cache := ∅;
     defaultTtl :=
       match defaultTtl' with
       | Some n => if truthy (JNum n) then n else (60 * 60 * 1000)%Z
       | None => (60 * 60 * 1000)%Z
       end |}.

(** Every method that reads the clock takes [Date.now()] as [now]. *)
Definition set (key : CacheKey) (d : Payload) (ttl' : option Z)
    (now : Z) (c : t) : t :=
  let entry := {| data := d; timestamp := now;
                  ttl := num_or ttl' (defaultTtl c) |} in
  {| cache := <[key := entry]> (cache c); defaultTtl := defaultTtl c |}.

Definition get (key : CacheKey) (now : Z) (c : t) : option Payload * t :=
  match cache c !! key with
  | None => (None, c)
  | Some entry =>
      if (now - timestamp entry >? ttl entry)%Z
      then (None, {| cache := base.delete key (cache c);
                     defaultTtl := defaultTtl c |})
      else (Some (data entry), c)
  end.

Definition has (key : CacheKey) (now : Z) (c : t) : bool * t :=
  match cache c !! key with
  | None => (false, c)
  | Some entry =>
      if (now - timestamp entry >? ttl entry)%Z
      then (false, {| cache := base.delete key (cache c);
                      defaultTtl := defaultTtl c |})
      else (true, c)
  end.

Definition delete (key : CacheKey) (c : t) : bool * t :=
  (bool_decide (is_Some (cache c !! key)),
   {| cache := base.delete key (cache c); defaultTtl := defaultTtl c |}).

Definition clear (c : t) : t :=
  {| cache := ∅; defaultTtl := defaultTtl c |}.

Definition size (c : t) : nat := base.size (cache c).

Definition cleanup (now : Z) (c : t) : t :=
  {| cache := base.filter
                (fun kv => negb (now - timestamp (snd kv) >? ttl (snd kv))%Z
                           = true)
                (cache c);
     defaultTtl := defaultTtl c |}.

(** [Array.prototype.sort()] without a comparator orders strings by code
    unit, here by byte. *)
Definition generateKey (endpoint : string) (params : option JsObject)
    : CacheKey :=
  match params with
  | None => endpoint
  | Some p =>
      if (List.length (Object_keys p) =? 0)%nat then endpoint
      else
        let sortedParams :=
          String.concat "&"
            (List.map (fun key => key +:+ "=" +:+ js_toString (get_prop p key))
                      (merge_sort String.le (Object_keys p))) in
        endpoint +:+ "?" +:+ sortedParams
  end.

End ApiCache.

(** ** The world the client runs in *)

(** Only the [message] of an [Error] object is ever read. *)
Record JsError : Type := { message : string }.

Inductive Result (A : Type) : Type :=
| Ok (a : A)
| Throw (e : JsError).
Arguments Ok {A} a.
Arguments Throw {A} e.

Inductive Method : Type := GET | POST.

(** What the client does to the outside: an outbound [fetch] (for POST with
    the object handed to [JSON.stringify]), a [setTimeout] wait, a
    [console.warn]. *)
Inductive Event : Type :=
| EvFetch (m : Method) (url : string) (body : option JsObject)
| EvSleep (ms : Z)
| EvWarn (text : string) (error : JsError).

(** A response body either fails to decode ([response.json()] rejects, or
    reading a member of the decoded value raises) or is a JSON object, of
    which the client reads [detail], [status] and [data]; a member that is
    not there is [undefined]. *)
Inductive Body : Type :=
| BodyInvalid (msg : string)
| BodyJson (detail : JsVal) (status : JsVal) (data' : Payload).

(** [fetch] either rejects (network failure) or resolves to a response with
    an HTTP status and a body. *)
Inductive FetchResult : Type :=
| NetworkError (msg : string)
| Response (httpStatus : Z) (body : Body).

Record Reply : Type := {
  elapsed : Z;
  result : FetchResult
}.

(** The remote service is a stream of replies: the [n]-th outbound call of a
    run gets [remote n], whatever it asks for. Quantifying over all streams
    covers every behaviour of the service. *)
Record World : Type := {
  client_cache : ApiCache.t;
  clock : Z;
  remote : nat -> Reply;
  served : nat
}.

Definition M (A : Type) : Type := World -> Result A * World * list Event.

Definition ret {A} (a : A) : M A := fun w => (Ok a, w, []).

Definition throw {A} (e : JsError) : M A := fun w => (Throw e, w, []).

Definition bind {A B} (m : M A) (k : A -> M B) : M B :=
  fun w =>
    match m w with
    | (Ok a, w1, ev1) =>
        let '(r, w2, ev2) := k a w1 in (r, w2, (ev1 ++ ev2)%list)
    | (Throw e, w1, ev1) => (Throw e, w1, ev1)
    end.

(** [try { m } catch (error) { handler error }]. *)
Definition try_catch {A} (m : M A) (handler : JsError -> M A) : M A :=
  fun w =>
    match m w with
    | (Ok a, w1, ev1) => (Ok a, w1, ev1)
    | (Throw e, w1, ev1) =>
        let '(r, w2, ev2) := handler e w1 in (r, w2, (ev1 ++ ev2)%list)
    end.

Notation "x <- m ;; k" := (bind m (fun x => k))
  (at level 100, m at next level, right associativity).
Notation "m ;;; k" := (bind m (fun _ => k))
  (at level 100, right associativity).

Definition with_cache (c : ApiCache.t) (w : World) : World :=
  {| client_cache := c; clock := clock w; remote := remote w;
     served := served w |}.

Definition cache_get (key : CacheKey) : M (option Payload) :=
  fun w =>
    let '(r, c) := ApiCache.get key (clock w) (client_cache w) in
    (Ok r, with_cache c w, []).

Definition cache_set (key : CacheKey) (d : Payload) (ttl' : option Z)
    : M unit :=
  fun w =>
    (Ok tt, with_cache (ApiCache.set key d ttl' (clock w) (client_cache w)) w,
     []).

Definition fetch (m : Method) (url : string) (body : option JsObject)
    : M (Z * Body) :=
  fun w =>
    let reply := remote w (served w) in
    let w' := {| client_cache := client_cache w;
                 clock := (clock w + elapsed reply)%Z;
                 remote := remote w;
                 served := S (served w) |} in
    match result reply with
    | NetworkError msg => (Throw {| message := msg |}, w', [EvFetch m url body])
    | Response st b => (Ok (st, b), w', [EvFetch m url body])
    end.

(** [await new Promise(resolve => setTimeout(resolve, ms))]. *)
Definition sleep (ms : Z) : M unit :=
  fun w =>
    (Ok tt,
     {| client_cache := client_cache w; clock := (clock w + ms)%Z;
        remote := remote w; served := served w |},
     [EvSleep ms]).

Definition console_warn (text : string) (error : JsError) : M unit :=
  fun w => (Ok tt, w, [EvWarn text error]).

(** [response.ok]. *)
Definition response_ok (httpStatus : Z) : bool :=
  ((200 <=? httpStatus) && (httpStatus <=? 299))%Z.

(** [await response.json()] followed by the member reads. *)
Definition response_json (b : Body) : M (JsVal * JsVal * Payload) :=
  match b with
  | BodyInvalid msg => throw {| message := msg |}
  | BodyJson detail status d => ret (detail, status, d)
  end.

(** ** Request executor and query planner ([client.ts]) *)

Definition baseUrl : string := "https://data.neonscience.org".
Definition retryAttempts : nat := 3.
Definition retryDelay : Z := 1000.

(** [new NeonApiClient()] owns a fresh [new ApiCache()]. *)
Definition new_client (remote' : nat -> Reply) (now : Z) : World :=
  {| client_cache := ApiCache.new None; clock := now; remote := remote';
     served := 0 |}.

Definition hex_digit (n : N) : Ascii.ascii :=
  if (n <? 10)%N then Ascii.ascii_of_N (48 + n) else Ascii.ascii_of_N (55 + n).

(** The [application/x-www-form-urlencoded] byte serializer behind
    [URLSearchParams.toString()]. *)
Definition form_encode_byte (c : Ascii.ascii) : string :=
  let n := Ascii.N_of_ascii c in
  if (((48 <=? n) && (n <=? 57)) || ((65 <=? n) && (n <=? 90))
      || ((97 <=? n) && (n <=? 122))
      || (n =? 42) || (n =? 45) || (n =? 46) || (n =? 95))%N
  then String c EmptyString
  else if (n =? 32)%N then "+"
  else "%" +:+ String (hex_digit (n / 16))
                  (String (hex_digit (n mod 16)) EmptyString).

Fixpoint form_encode (s : string) : string :=
  match s with
  | EmptyString => EmptyString
  | String c s' => form_encode_byte c +:+ form_encode s'
  end.

Definition URLSearchParams_toString (l : list (string * string)) : string :=
  String.concat "&"
    (List.map (fun kv => form_encode (fst kv) +:+ "=" +:+ form_encode (snd kv))
              l).

(** The [searchParams.append] calls of [makeRequest], in order. *)
Definition searchParams (params : JsObject) : list (string * string) :=
  flat_map (fun kv =>
              match snd kv with
              | JUndefined | JNull => []
              | JArr value => List.map (fun v => (fst kv, js_toString v)) value
              | value => [(fst kv, js_toString value)]
              end)
           (Object_entries params).

Definition request_url (endpoint : string) (params : option JsObject)
    : string :=
  let url := baseUrl +:+ endpoint in
  match params with
  | None => url
  | Some p =>
      if (0 <? List.length (Object_keys p))%nat
      then url +:+ "?" +:+ URLSearchParams_toString (searchParams p)
      else url
  end.

Definition api_error (detail status : JsVal) : JsError :=
  {| message := "NEON API Error: " +:+ js_toString detail +:+ " (Status: "
                +:+ js_toString status +:+ ")" |}.

(** The [try] block of [makeRequest]: one outbound attempt. *)
Definition makeRequest_attempt (url : string) (cacheKey : CacheKey)
    (cacheEnabled : bool) (cacheTtl : option Z) : M Payload :=
  response <- fetch GET url None ;;
  if negb (response_ok (fst response)) then
    errorData <- response_json (snd response) ;;
    throw (api_error (fst (fst errorData)) (snd (fst errorData)))
  else
    data <- response_json (snd response) ;;
    (if cacheEnabled then cache_set cacheKey (snd data) cacheTtl else ret tt) ;;;
    ret (snd data).

(** The [for] loop of [makeRequest]; [remaining] is
    [retryAttempts - attempt]. *)
Fixpoint makeRequest_loop (remaining attempt : nat)
    (lastError : option JsError) (url : string) (cacheKey : CacheKey)
    (cacheEnabled : bool) (cacheTtl : option Z) : M Payload :=
  match remaining with
  | O =>
      throw (default {| message := "Failed to make request after retries" |}
                     lastError)
  | S remaining' =>
      try_catch
        (makeRequest_attempt url cacheKey cacheEnabled cacheTtl)
        (fun error =>
           if includes (message error) "Status: 4" then throw error
           else
             (if (attempt <? retryAttempts - 1)%nat
              then sleep (retryDelay * (Z.of_nat attempt + 1))
              else ret tt) ;;;
             makeRequest_loop remaining' (S attempt) (Some error)
                              url cacheKey cacheEnabled cacheTtl)
  end.

Definition makeRequest (endpoint : string) (params : option JsObject)
    (cacheEnabled : bool) (cacheTtl : option Z) : M Payload :=
  let cacheKey := ApiCache.generateKey endpoint params in
  cached <- (if cacheEnabled then cache_get cacheKey else ret None) ;;
  match cached with
  | Some v =>
      if payload_truthy v then ret v
      else makeRequest_loop retryAttempts 0 None
             (request_url endpoint params) cacheKey cacheEnabled cacheTtl
  | None =>
      makeRequest_loop retryAttempts 0 None
        (request_url endpoint params) cacheKey cacheEnabled cacheTtl
  end.

(** [v.length] for the values the planner measures; [None] is
    [undefined]. [siteCodes] is declared [string[]], so only arrays and
    strings are given a length. *)
Definition js_length (v : JsVal) : option nat :=
  match v with
  | JArr elems => Some (List.length elems)
  | JStr s => Some (String.length s)
  | _ => None
  end.

(** [v[0]]. *)
Definition js_first (v : JsVal) : JsVal :=
  match v with
  | JArr (x :: _) => x
  | JStr (String c _) => JStr (String c EmptyString)
  | _ => JUndefined
  end.

(** [params.siteCodes && params.siteCodes.length > 1]. *)
Definition multiple_sites (params : JsObject) : bool :=
  truthy (get_prop params "siteCodes") &&
  match js_length (get_prop params "siteCodes") with
  | Some n => (1 <? n)%nat
  | None => false
  end.

(** The [else] branch of [queryData]: the object spread, then the
    single-site rewrite. *)
Definition single_site_params (params : JsObject) : JsObject :=
  let queryParams := params in
  if truthy (get_prop params "siteCodes")
  then delete_prop
         (set_prop queryParams "siteCode"
                   (js_first (get_prop params "siteCodes")))
         "siteCodes"
  else queryParams.

Definition queryData (params : JsObject) : M Payload :=
  let endpoint := "/api/v0/data/query" in
  if multiple_sites params then
    let cacheKey := ApiCache.generateKey endpoint (Some params) in
    cached <- cache_get cacheKey ;;
    let post :=
      response <- fetch POST (baseUrl +:+ endpoint) (Some params) ;;
      if negb (response_ok (fst response)) then
        errorData <- response_json (snd response) ;;
        throw (api_error (fst (fst errorData)) (snd (fst errorData)))
      else
        data <- response_json (snd response) ;;
        cache_set cacheKey (snd data) None ;;;
        ret (snd data) in
    match cached with
    | Some v => if payload_truthy v then ret v else post
    | None => post
    end
  else
    makeRequest endpoint (Some (single_site_params params)) true
                (Some (30 * 60 * 1000)%Z).

(** ** Location resolver *)

Definition type_error (msg : string) : JsError := {| message := msg |}.

(** The first use the resolver makes of a payload: [tower.siteCode] of a
    by-name lookup, [siteLocations.filter] and [siteLocations.slice] of the
    catalog. Both functions are exact on the declared shapes. On any other
    payload they raise, and the resolver's [catch] turns that into "nothing
    found". The code ends in the same way on every payload that is neither
    a JSON array, nor a JSON object, nor a string: [null] and [undefined]
    raise a [TypeError] at the member access, a number or a boolean has no
    [siteCode] and no [filter] or [slice] to call, a declared location is
    no array and a declared list has no [siteCode]. A JSON array or object
    of another shape than the declared one is read by the code member by
    member, as far as [&&] and [||] reach, and a string is sliced and
    iterated: the model does not follow the code there, and the statements
    about what the resolver finds leave these payloads out (see
    [no_match]). *)
Definition as_Location (p : Payload) : M Location :=
  match p with
  | PLocation loc => ret loc
  | _ => throw (type_error "Cannot read properties of undefined")
  end.

Definition as_Locations (p : Payload) : M (list Location) :=
  match p with
  | PLocations locs => ret locs
  | _ => throw (type_error "siteLocations.filter is not a function")
  end.

Definition getSiteLocations : M (list Location) :=
  p <- makeRequest "/api/v0/locations/sites" None true None ;;
  as_Locations p.

Definition str_truthy (s : option string) : bool :=
  match s with
  | Some s => truthy (JStr s)
  | None => false
  end.

Definition getLocation (locationName' : string)
    (hierarchy history : option bool) (locationType' : option string)
    : M Location :=
  let params : JsObject := [] in
  let params := if default false hierarchy
                then set_prop params "hierarchy" (JBool true) else params in
  let params := if default false history
                then set_prop params "history" (JBool true) else params in
  let params := if str_truthy locationType'
                then set_prop params "locationType"
                              (JStr (default "" locationType'))
                else params in
  p <- makeRequest ("/api/v0/locations/" +:+ locationName') (Some params)
                   true None ;;
  as_Location p.

(** The [filter] predicate of [findTowersAtSite]. *)
Definition is_tower_at (siteCode' : string) (loc : Location) : bool :=
  String.eqb (siteCode loc) siteCode' &&
  (String.eqb (locationType loc) "TOWER"
   || includes (toUpperCase (locationName loc)) "TOWER"
   || includes (toLowerCase (locationDescription loc)) "tower"
   || includes (toLowerCase (locationDescription loc)) "flux").

Definition possibleTowerNames (siteCode' : string) : list string :=
  [ "TOWER" +:+ siteCode';
    siteCode' +:+ "_TOWER";
    siteCode' +:+ ".TOWER";
    "TOWER104454";
    "TOWER103029";
    "TOWER102755" ].

(** One direct by-name lookup, kept only when its site field matches;
    [None] when it does not match or the lookup fails. *)
Definition lookup_tower (towerName siteCode' : string) : M (option Location) :=
  try_catch
    (tower <- getLocation towerName None None None ;;
     if String.eqb (siteCode tower) siteCode' then ret (Some tower)
     else ret None)
    (fun _ => ret None).

(** The [for (const towerName of possibleTowerNames)] loop. *)
Fixpoint guess_towers (siteCode' : string) (names : list string)
    (towers : list Location) : M (list Location) :=
  match names with
  | [] => ret towers
  | towerName :: names' =>
      found <- lookup_tower towerName siteCode' ;;
      guess_towers siteCode' names'
        (match found with
         | Some tower => (towers ++ [tower])%list
         | None => towers
         end)
  end.

(** Everything of [findTowersAtSite] after the SRER shortcut. *)
Definition catalog_search (siteCode' : string) : M (list Location) :=
  siteLocations <- getSiteLocations ;;
  let towers := List.filter (is_tower_at siteCode') siteLocations in
  if (List.length towers =? 0)%nat
  then guess_towers siteCode' (possibleTowerNames siteCode') towers
  else ret towers.

(** The SRER shortcut: the known tower, tried first. *)
Definition srer_shortcut (siteCode' : string) : M (option Location) :=
  if String.eqb siteCode' "SRER"
  then lookup_tower "TOWER104454" siteCode'
  else ret None.

Definition findTowersAtSite (siteCode' : string) : M (list Location) :=
  try_catch
    (direct <- srer_shortcut siteCode' ;;
     match direct with
     | Some tower => ret [tower]
     | None => catalog_search siteCode'
     end)
    (fun error =>
       console_warn ("Error finding towers at " +:+ siteCode' +:+ ":") error ;;;
       ret []).

(** The [for (const site of siteLocations.slice(0, 10))] loop. *)
Fixpoint search_sites (sites : list Location) (matchingLocations : list Location)
    : M (list Location) :=
  match sites with
  | [] => ret matchingLocations
  | site :: sites' =>
      matching' <- try_catch
                     (towers <- findTowersAtSite (siteCode site) ;;
                      ret (matchingLocations ++ towers)%list)
                     (fun _ => ret matchingLocations) ;;
      search_sites sites' matching'
  end.

(** The cross-site branch of [searchLocationsByType], with its [try]. *)
Definition cross_site_search : M (list Location) :=
  try_catch
    (siteLocations <- getSiteLocations ;;
     search_sites (firstn 10 siteLocations) [])
    (fun error =>
       console_warn "Error searching locations by type:" error ;;; ret []).

(** With a site code the promise of [findTowersAtSite] is returned as it
    is, so the surrounding [try] only guards the cross-site branch. The
    [locationType] argument is not read. *)
Definition searchLocationsByType (locationType' : string)
    (siteCode' : option string) : M (list Location) :=
  if str_truthy siteCode' then findTowersAtSite (default "" siteCode')
  else cross_site_search.

(** ** Observations on a run *)

Definition out_result {A} (o : Result A * World * list Event) : Result A :=
  fst (fst o).
Definition out_world {A} (o : Result A * World * list Event) : World :=
  snd (fst o).
Definition out_events {A} (o : Result A * World * list Event) : list Event :=
  snd o.

Definition is_fetch (ev : Event) : bool :=
  match ev with
  | EvFetch _ _ _ => true
  | _ => false
  end.

(** Number of outbound calls, and the timer waits in order. *)
Definition fetch_count (evs : list Event) : nat :=
  List.length (List.filter is_fetch evs).

Fixpoint delays (evs : list Event) : list Z :=
  match evs with
  | [] => []
  | EvSleep ms :: evs' => ms :: delays evs'
  | _ :: evs' => delays evs'
  end.

(** What one attempt of [makeRequest] makes of a reply. *)
Definition attempt_outcome (r : Reply) : Result Payload :=
  match result r with
  | NetworkError msg => Throw {| message := msg |}
  | Response st (BodyInvalid msg) => Throw {| message := msg |}
  | Response st (BodyJson detail status d) =>
      if response_ok st then Ok d else Throw (api_error detail status)
  end.

(** The test of the [catch] block that stops the retries. *)
Definition client_error (e : JsError) : bool :=
  includes (message e) "Status: 4".

(** The outbound calls and waits of a run with [n] attempts, the first of
    them numbered [attempt] (from 0). *)
Fixpoint attempts_trace (url : string) (attempt n : nat) : list Event :=
  match n with
  | O => []
  | S O => [EvFetch GET url None]
  | S n' =>
      EvFetch GET url None
      :: EvSleep (retryDelay * (Z.of_nat attempt + 1))
      :: attempts_trace url (S attempt) n'
  end.

(** The value a call of [makeRequest] takes from the cache, if any. *)
Definition cache_hit (endpoint : string) (params : option JsObject)
    (cacheEnabled : bool) (w : World) : option Payload :=
  if cacheEnabled then
    match fst (ApiCache.get (ApiCache.generateKey endpoint params)
                            (clock w) (client_cache w)) with
    | Some v => if payload_truthy v then Some v else None
    | None => None
    end
  else None.

(** [P] without its [undefined]-valued properties. *)
Definition drop_undefined (o : JsObject) : JsObject :=
  List.filter (fun kv => match snd kv with JUndefined => false | _ => true end)
              o.

(** ** Vocabulary of the statements *)

(** [siteCodes] as [DataQueryParams] declares it: absent or an array. *)
Definition siteCodes_typed (params : JsObject) : Prop :=
  get_prop params "siteCodes" = JUndefined
  \/ exists sites, get_prop params "siteCodes" = JArr sites.

(** The number of sites in [siteCodes]. *)
Definition site_count (params : JsObject) : nat :=
  match get_prop params "siteCodes" with
  | JArr sites => List.length sites
  | _ => 0%nat
  end.

Definition query_endpoint : string := "/api/v0/data/query".

(** A world invariant [I] kept by a computation, with what its result
    satisfies when it returns. *)
Definition keeps {A} (I : World -> Prop) (m : M A) (post : A -> Prop) : Prop :=
  forall w, I w ->
    I (out_world (m w)) /\ (forall a, out_result (m w) = Ok a -> post a).







(** Every event of every run of [m] satisfies [E]. *)
Definition emits {A} (E : Event -> Prop) (m : M A) : Prop :=
  forall w, Forall E (out_events (m w)).

(** No run of [m] makes more than [n] outbound calls. *)
Definition costs {A} (n : nat) (m : M A) : Prop :=
  forall w, (fetch_count (out_events (m w)) <= n)%nat.

Definition catalog_url : string :=
  "https://data.neonscience.org/api/v0/locations/sites".

Definition location_url (name : string) : string :=
  "https://data.neonscience.org/api/v0/locations/" +:+ name.

(** The outbound calls of the resolver: a GET without body. *)
Definition calls (P : string -> Prop) (ev : Event) : Prop :=
  match ev with
  | EvFetch m url body => m = GET /\ body = None /\ P url
  | _ => True
  end.

(** The URLs the resolution chain may ask for on behalf of a site: the
    catalog, or a by-name lookup of one of the guessed tower names. *)
Definition site_url (site' : string) (url : string) : Prop :=
  url = catalog_url
  \/ exists name, In name (possibleTowerNames site') /\ url = location_url name.

Definition sites_url_of (sites : list Location) (url : string) : Prop :=
  url = catalog_url
  \/ exists s, In s sites /\ site_url (siteCode s) url.

(** The reading of the cross-site search that issues nothing but catalog
    fetches. *)
Definition only_catalog_calls (evs : list Event) : Prop :=
  Forall (calls (fun url => url = catalog_url)) evs.

(** What [findTowersAtSite] returns for each of [sites] in turn, each call
    starting in the world the previous one left. *)
Fixpoint per_site_towers (sites : list Location) (w : World)
    : list (list Location) :=
  match sites with
  | [] => []
  | s :: sites' =>
      let o := findTowersAtSite (siteCode s) w in
      match out_result o with
      | Ok towers => towers
      | Throw _ => []
      end :: per_site_towers sites' (out_world o)
  end.

(** ** Sample inputs *)

Definition sample_entry : CacheEntry :=
  {| data := PJson (JStr "v"); timestamp := 1000; ttl := 500 |}.

Definition sample_cache : ApiCache.t :=
  {| ApiCache.cache := {[ "k" := sample_entry ]};
     ApiCache.defaultTtl := 3600000 |}.

Definition params_ab : JsObject := [("a", JNum 1); ("b", JStr "x")].
Definition params_ba : JsObject := [("b", JStr "x"); ("a", JNum 1)].

(** The parameter object [handleDataTool] builds for a single-site query
    that gives no package, release or provisional flag. *)
Definition tool_query_params : JsObject :=
  [ ("productCode", JStr "DP1.10003.001");
    ("startDateMonth", JStr "2020-01");
    ("endDateMonth", JStr "2020-12");
    ("package", JUndefined);
    ("release", JUndefined);
    ("includeProvisional", JUndefined);
    ("siteCode", JStr "HARV") ].

(** A gateway answers 404 with an HTML page: the body is not JSON. *)
Definition reply_404_html : Reply :=
  {| elapsed := 40;
     result := Response 404
                 (BodyInvalid "Unexpected token < in JSON at position 0") |}.

(** A 404 whose JSON body carries no [status] member. *)
Definition reply_404_plain : Reply :=
  {| elapsed := 40;
     result := Response 404
                 (BodyJson (JStr "Not Found") JUndefined (PJson JUndefined)) |}.

(** A 500 whose body reports the status of a failed upstream call. *)
Definition reply_500_says_404 : Reply :=
  {| elapsed := 40;
     result := Response 500
                 (BodyJson (JStr "upstream lookup failed") (JNum 404)
                           (PJson JUndefined)) |}.

Definition reply_503 : Reply :=
  {| elapsed := 40;
     result := Response 503
                 (BodyJson (JStr "Service Unavailable") (JNum 503)
                           (PJson JUndefined)) |}.

Definition reply_404 : Reply :=
  {| elapsed := 40;
     result := Response 404
                 (BodyJson (JStr "Not Found") (JNum 404) (PJson JUndefined)) |}.

Definition sites_url : string := "https://data.neonscience.org/api/v0/sites".

(** A client with an empty cache facing a service that is down. *)
Definition world_down : World := new_client (fun _ => reply_503) 0.

Definition two_site_params : JsObject :=
  [ ("productCode", JStr "DP1.10003.001");
    ("siteCodes", JArr [JStr "HARV"; JStr "BART"]);
    ("startDateMonth", JStr "2020-01");
    ("endDateMonth", JStr "2020-12") ].

Definition one_site_params : JsObject :=
  [ ("productCode", JStr "DP1.10003.001");
    ("siteCodes", JArr [JStr "HARV"]);
    ("startDateMonth", JStr "2020-01");
    ("endDateMonth", JStr "2020-12") ].

Definition reply_query_ok : Reply :=
  {| elapsed := 40;
     result := Response 200
                 (BodyJson JUndefined JUndefined
                    (PJson (JObj [("siteCodes", JArr [])]))) |}.

(** A client with an empty cache facing a service that answers data
    queries, at time 1000. *)
Definition world_query : World := new_client (fun _ => reply_query_ok) 1000.

Definition abby_site : Location :=
  {| locationName := "ABBY"; locationType := "SITE";
     locationDescription := "Abby Road"; siteCode := "ABBY" |}.

Definition reply_catalog (locs : list Location) : Reply :=
  {| elapsed := 40;
     result := Response 200
                 (BodyJson JUndefined JUndefined (PLocations locs)) |}.

(** A client with an empty cache; the first outbound call is answered with
    a catalog that lists the site ABBY and no tower, every later call with
    a 404. *)
Definition world_no_towers : World :=
  new_client (fun n => match n with
                       | O => reply_catalog [abby_site]
                       | S _ => reply_404
                       end) 0.

(** ** Vocabulary of the further properties *)

(** What the caller of [get] holds: the data of the entry, or [null]. *)
Definition returned (r : option Payload) : Payload := default (PJson JNull) r.

(** The expiry test of [get], [has] and [cleanup]. *)
Definition expired (now : Z) (e : CacheEntry) : bool :=
  (now - timestamp e >? ttl e)%Z.

(** [cleanup] as it is written: a first loop collects the keys of the
    expired entries, a second one deletes them. *)
Definition keysToDelete (now : Z) (c : ApiCache.t) : list CacheKey :=
  (List.filter (fun kv => expired now (snd kv))
               (map_to_list (ApiCache.cache c))).*1.

Definition cleanup_loops (now : Z) (c : ApiCache.t) : ApiCache.t :=
  {| ApiCache.cache :=
       foldl (fun m key => base.delete key m) (ApiCache.cache c)
             (keysToDelete now c);
     ApiCache.defaultTtl := ApiCache.defaultTtl c |}.

(** The world one attempt of [makeRequest] leaves: the clock has moved by
    the time the reply took, and a successful reply has been written to the
    cache when caching is enabled. *)
Definition attempt_world (key : CacheKey) (cacheEnabled : bool)
    (cacheTtl : option Z) (w : World) : World :=
  let reply := remote w (served w) in
  let now := (clock w + elapsed reply)%Z in
  {| client_cache :=
       match attempt_outcome reply with
       | Ok d => if cacheEnabled
                 then ApiCache.set key d cacheTtl now (client_cache w)
                 else client_cache w
       | Throw _ => client_cache w
       end;
     clock := now;
     remote := remote w;
     served := S (served w) |}.

(** The world [dt] ms later, nothing else having happened. *)
Definition pass_time (dt : Z) (w : World) : World :=
  {| client_cache := client_cache w; clock := (clock w + dt)%Z;
     remote := remote w; served := served w |}.

(** ** The other accessors of [client.ts] *)

(** [release ? { release } : undefined]. *)
Definition release_params (release : option string) : option JsObject :=
  if str_truthy release
  then Some [("release", JStr (default "" release))]
  else None.

Definition getSites (release : option string) : M Payload :=
  makeRequest "/api/v0/sites" (release_params release) true None.

Definition getSite (siteCode' : string) : M Payload :=
  makeRequest ("/api/v0/sites/" +:+ siteCode') None true None.

(** Sample data is not cached. *)
Definition trackSample (params : JsObject) : M Payload :=
  makeRequest "/api/v0/samples/view" (Some params) false None.

(** A service that answers every call with the site list. *)
Definition reply_sites_ok : Reply :=
  {| elapsed := 40;
     result := Response 200
                 (BodyJson JUndefined JUndefined
                    (PJson (JArr [JObj [("siteCode", JStr "HARV")]]))) |}.

Definition world_sites : World := new_client (fun _ => reply_sites_ok) 1000.

(** A query that names a single site and, beside it, a list. *)
Definition both_sites_params : JsObject :=
  [ ("productCode", JStr "DP1.10003.001");
    ("siteCode", JStr "HARV");
    ("siteCodes", JArr []) ].

Definition srer_tower : Location :=
  {| locationName := "TOWER104454"; locationType := "TOWER";
     locationDescription := "Santa Rita tower"; siteCode := "SRER" |}.

Definition reply_location (loc : Location) : Reply :=
  {| elapsed := 40;
     result := Response 200
                 (BodyJson JUndefined JUndefined (PLocation loc)) |}.

(** The by-name lookup of the SRER tower is answered with the tower. *)
Definition world_srer : World := new_client (fun _ => reply_location srer_tower) 0.

Definition harv_tower : Location :=
  {| locationName := "HARV Flux"; locationType := "OTHER";
     locationDescription := "Eddy flux tower at Harvard Forest";
     siteCode := "HARV" |}.

(** The catalog lists a tower of HARV beside the site ABBY. *)
Definition world_harv : World :=
  new_client (fun _ => reply_catalog [abby_site; harv_tower]) 0.

(** ** The data tool's call of [queryData] *)

(** The validated input of [neon_query_data], as its schema types it. *)
Record DataQueryInput : Type := {
  in_productCode : string;
  in_siteCode : option string;
  in_siteCodes : option (list string);
  in_startDateMonth : string;
  in_endDateMonth : string;
  in_package : option string;
  in_release : option string;
  in_includeProvisional : option bool
}.

Definition opt_string (s : option string) : JsVal :=
  match s with
  | Some s => JStr s
  | None => JUndefined
  end.

Definition opt_bool (b : option bool) : JsVal :=
  match b with
  | Some b => JBool b
  | None => JUndefined
  end.

(** The [queryParams] object [handleDataTool] passes to [queryData]: six
    properties written out, then [siteCode] or else [siteCodes] added by
    [Object.assign]. *)
Definition tool_queryParams (validated : DataQueryInput) : JsObject :=
  let queryParams : JsObject :=
    [ ("productCode", JStr (in_productCode validated));
      ("startDateMonth", JStr (in_startDateMonth validated));
      ("endDateMonth", JStr (in_endDateMonth validated));
      ("package", opt_string (in_package validated));
      ("release", opt_string (in_release validated));
      ("includeProvisional", opt_bool (in_includeProvisional validated)) ] in
  if str_truthy (in_siteCode validated)
  then set_prop queryParams "siteCode"
                (JStr (default "" (in_siteCode validated)))
  else match in_siteCodes validated with
       | Some sites =>
           set_prop queryParams "siteCodes" (JArr (List.map JStr sites))
       | None => queryParams
       end.

Definition input_site_and_list : DataQueryInput :=
  {| in_productCode := "DP1.10003.001";
     in_siteCode := Some "HARV";
     in_siteCodes := Some ["BART"; "ABBY"];
     in_startDateMonth := "2020-01";
     in_endDateMonth := "2020-12";
     in_package := None;
     in_release := None;
     in_includeProvisional := None |}.

(** [P] without its [undefined]- and [null]-valued properties. *)
Definition drop_nullish (o : JsObject) : JsObject :=
  List.filter (fun kv => match snd kv with
                         | JUndefined | JNull => false
                         | _ => true
                         end) o.

(** The service fails once with a 503 and then answers. *)
Definition world_flaky : World :=
  new_client (fun n => match n with
                       | O => reply_503
                       | S _ => reply_sites_ok
                       end) 1000.

(** * Response cache *)

Section CacheFacts.

Variables (key : CacheKey) (now : Z) (c : ApiCache.t).

Lemma get_absent :
  ApiCache.cache c !! key = None -> ApiCache.get key now c = (None, c).
Proof. unfold ApiCache.get. intros ->. reflexivity. Qed.

Lemma get_expired (e : CacheEntry) :
  ApiCache.cache c !! key = Some e ->
  (timestamp e + ttl e < now)%Z ->
  ApiCache.get key now c
  = (None, {| ApiCache.cache := base.delete key (ApiCache.cache c);
              ApiCache.defaultTtl := ApiCache.defaultTtl c |}).
Proof.
  unfold ApiCache.get. intros -> Hlt.
  destruct (Z.gtb_spec (now - timestamp e) (ttl e)) as [_ | Hle];
    [reflexivity | lia].
Qed.

Lemma get_valid (e : CacheEntry) :
  ApiCache.cache c !! key = Some e ->
  (now <= timestamp e + ttl e)%Z ->
  ApiCache.get key now c = (Some (data e), c).
Proof.
  unfold ApiCache.get. intros -> Hle.
  destruct (Z.gtb_spec (now - timestamp e) (ttl e)) as [Hgt | _];
    [lia | reflexivity].
Qed.

Lemma set_lookup (d : Payload) (ttl' : option Z) :
  ApiCache.cache (ApiCache.set key d ttl' now c) !! key
  = Some {| data := d; timestamp := now;
            ttl := num_or ttl' (ApiCache.defaultTtl c) |}.
Proof. unfold ApiCache.set. simpl. apply lookup_insert_eq. Qed.

End CacheFacts.

(** C5. For a key that holds an entry, [get] at a time later than
    [storedAt + ttl] returns absent and removes the entry from the store;
    [get] at a time no later than [storedAt + ttl] returns the stored value
    and leaves the store as it is. *)
Theorem get_expire_on_read (key : CacheKey) (now : Z) (c : ApiCache.t)
    (e : CacheEntry) :
  ApiCache.cache c !! key = Some e ->
  ((timestamp e + ttl e < now)%Z ->
     fst (ApiCache.get key now c) = None /\
     ApiCache.cache (snd (ApiCache.get key now c)) !! key = None /\
     ApiCache.cache (snd (ApiCache.get key now c))
     = base.delete key (ApiCache.cache c)) /\
  ((now <= timestamp e + ttl e)%Z ->
     fst (ApiCache.get key now c) = Some (data e) /\
     snd (ApiCache.get key now c) = c /\
     ApiCache.cache (snd (ApiCache.get key now c)) !! key = Some e).
Proof.
  intros Hin. split; intros Ht.
  - rewrite (get_expired key now c e Hin Ht). simpl.
    split; [reflexivity | split; [apply lookup_delete_eq | reflexivity]].
  - rewrite (get_valid key now c e Hin Ht). simpl. auto.
Qed.

Lemma get_expire_on_read_witness :
  fst (ApiCache.get "k" 1501 sample_cache) = None /\
  fst (ApiCache.get "k" 1500 sample_cache) = Some (PJson (JStr "v")).
Proof.
  assert (Hin : ApiCache.cache sample_cache !! "k" = Some sample_entry)
    by reflexivity.
  destruct (get_expire_on_read "k" 1501 sample_cache sample_entry Hin)
    as [Hlate _].
  destruct (get_expire_on_read "k" 1500 sample_cache sample_entry Hin)
    as [_ Hfresh].
  split.
  - apply Hlate. simpl. lia.
  - apply Hfresh. simpl. lia.
Defined.

(** C10. A TTL of 0 cannot be stored: [set(key, value, 0)] stamps the entry
    with the default TTL of the cache, and [new ApiCache(0)] keeps the
    default TTL at one hour, as [new ApiCache()] does; so on a cache built
    either way the entry gets one hour. *)
Theorem zero_ttl_is_default (key : CacheKey) (value : Payload) (now : Z)
    (c : ApiCache.t) :
  ApiCache.cache (ApiCache.set key value (Some 0%Z) now c) !! key
  = Some {| data := value; timestamp := now; ttl := ApiCache.defaultTtl c |}
  /\ ApiCache.defaultTtl (ApiCache.new (Some 0%Z)) = 3600000%Z
  /\ ApiCache.defaultTtl (ApiCache.new None) = 3600000%Z
  /\ ApiCache.cache
       (ApiCache.set key value (Some 0%Z) now (ApiCache.new (Some 0%Z))) !! key
     = Some {| data := value; timestamp := now; ttl := 3600000 |}
  /\ ApiCache.cache
       (ApiCache.set key value (Some 0%Z) now (ApiCache.new None)) !! key
     = Some {| data := value; timestamp := now; ttl := 3600000 |}.
Proof.
  repeat split; try reflexivity; rewrite set_lookup; reflexivity.
Qed.

(** * Cache key *)

Lemma get_prop_elem (o : JsObject) (k : string) (v : JsVal) :
  NoDup (o.*1) -> (k, v) ∈ o -> get_prop o k = v.
Proof.
  induction o as [| [k' v'] o IH]; simpl; intros Hnd Hin.
  - inversion Hin.
  - apply NoDup_cons in Hnd as [Hnotin Hnd].
    apply elem_of_cons in Hin as [Heq | Hin].
    + inversion Heq; subst. destruct (decide (k' = k')); congruence.
    + destruct (decide (k' = k)) as [-> | _]; [| auto].
      exfalso. apply Hnotin. apply list_elem_of_fmap. exists (k, v). auto.
Qed.

Lemma get_prop_missing (o : JsObject) (k : string) :
  k ∉ o.*1 -> get_prop o k = JUndefined.
Proof.
  induction o as [| [k' v'] o IH]; simpl; intros Hnotin; [reflexivity |].
  apply not_elem_of_cons in Hnotin as [Hne Hnotin].
  destruct (decide (k' = k)); [congruence | auto].
Qed.

Lemma get_prop_Permutation (o1 o2 : JsObject) (k : string) :
  NoDup (o1.*1) -> o1 ≡ₚ o2 -> get_prop o1 k = get_prop o2 k.
Proof.
  intros Hnd Hperm.
  assert (Hnd2 : NoDup (o2.*1)) by (rewrite <- Hperm; exact Hnd).
  destruct (decide (k ∈ o1.*1)) as [Hin | Hnotin].
  - apply list_elem_of_fmap in Hin as [[k' v] [-> Hin]]. simpl.
    rewrite (get_prop_elem o1 k' v Hnd Hin).
    symmetry. apply get_prop_elem; [exact Hnd2 |].
    rewrite <- Hperm. exact Hin.
  - rewrite (get_prop_missing o1 k Hnotin).
    symmetry. apply get_prop_missing. rewrite <- Hperm. exact Hnotin.
Qed.

Lemma sorted_keys_Permutation (o1 o2 : JsObject) :
  o1 ≡ₚ o2 ->
  merge_sort String.le (Object_keys o1) = merge_sort String.le (Object_keys o2).
Proof.
  intros Hperm.
  apply (Sorted_unique String.le).
  - apply Sorted_merge_sort; apply _.
  - apply Sorted_merge_sort; apply _.
  - rewrite !merge_sort_Permutation. unfold Object_keys.
    rewrite Hperm. reflexivity.
Qed.

(** C6. The cache key does not depend on the order of the parameters: two
    parameter objects that are permutations of the same key/value pairs get
    the same key for the same operation. *)
Theorem generateKey_Permutation (op : string) (P1 P2 : JsObject) :
  wf_object P1 -> P1 ≡ₚ P2 ->
  ApiCache.generateKey op (Some P1) = ApiCache.generateKey op (Some P2).
Proof.
  intros Hwf Hperm. unfold ApiCache.generateKey.
  assert (Hlen : List.length (Object_keys P1) = List.length (Object_keys P2)).
  { unfold Object_keys. rewrite !length_fmap. apply Permutation_length, Hperm. }
  rewrite Hlen, (sorted_keys_Permutation P1 P2 Hperm).
  destruct (List.length (Object_keys P2) =? 0)%nat; [reflexivity |].
  do 3 f_equal. apply map_ext. intros key.
  rewrite (get_prop_Permutation P1 P2 key Hwf Hperm). reflexivity.
Qed.

Lemma generateKey_Permutation_witness :
  ApiCache.generateKey "/api/v0/sites" (Some params_ab)
  = ApiCache.generateKey "/api/v0/sites" (Some params_ba).
Proof.
  apply (generateKey_Permutation "/api/v0/sites" params_ab params_ba).
  - unfold wf_object, params_ab. simpl.
    apply NoDup_cons. split.
    + intros Hin. apply list_elem_of_singleton in Hin. discriminate Hin.
    + apply NoDup_singleton.
  - unfold params_ab, params_ba. apply perm_swap.
Defined.

(** C7, at the object [handleDataTool] really passes: the key spells out
    each [undefined]-valued parameter, so it differs from the key of the
    same request without them, although both go to the same URL. *)
Theorem generateKey_keeps_undefined :
  ApiCache.generateKey "/api/v0/data/query" (Some tool_query_params)
  = "/api/v0/data/query?endDateMonth=2020-12&includeProvisional=undefined"
    +:+ "&package=undefined&productCode=DP1.10003.001&release=undefined"
    +:+ "&siteCode=HARV&startDateMonth=2020-01"
  /\ ApiCache.generateKey "/api/v0/data/query"
       (Some (drop_undefined tool_query_params))
     = "/api/v0/data/query?endDateMonth=2020-12&productCode=DP1.10003.001"
       +:+ "&siteCode=HARV&startDateMonth=2020-01"
  /\ ApiCache.generateKey "/api/v0/data/query" (Some tool_query_params)
     <> ApiCache.generateKey "/api/v0/data/query"
          (Some (drop_undefined tool_query_params))
  /\ request_url "/api/v0/data/query" (Some tool_query_params)
     = request_url "/api/v0/data/query"
         (Some (drop_undefined tool_query_params)).
Proof.
  repeat split; try (vm_compute; reflexivity).
  vm_compute. discriminate.
Qed.

(** * Request executor *)

Lemma attempt_run (url : string) (key : CacheKey) (ce : bool)
    (cttl : option Z) (w : World) :
  exists w1,
    makeRequest_attempt url key ce cttl w
    = (attempt_outcome (remote w (served w)), w1, [EvFetch GET url None])
    /\ served w1 = S (served w) /\ remote w1 = remote w.
Proof.
  unfold makeRequest_attempt, attempt_outcome, bind, fetch.
  destruct (result (remote w (served w))) as [msg | st [msg | detail status d]];
    simpl.
  - eexists; split; [reflexivity | split; reflexivity].
  - destruct (response_ok st); simpl;
      (eexists; split; [reflexivity | split; reflexivity]).
  - destruct (response_ok st); simpl.
    + destruct ce; simpl; (eexists; split; [reflexivity | split; reflexivity]).
    + eexists; split; [reflexivity | split; reflexivity].
Qed.

(** The loop, attempt by attempt: it runs [n] attempts, every one but the
    last ends in a failure that is not taken for a client error, and the
    last one decides the result. *)
Lemma loop_run (url : string) (key : CacheKey) (ce : bool) (cttl : option Z) :
  forall (remaining attempt : nat) (lastError : option JsError) (w : World),
    (attempt + remaining = retryAttempts)%nat ->
    exists n : nat,
      let out := makeRequest_loop remaining attempt lastError url key ce cttl w in
      (n <= remaining)%nat /\ ((0 < remaining)%nat -> (0 < n)%nat)
      /\ served (out_world out) = (served w + n)%nat
      /\ remote (out_world out) = remote w
      /\ out_events out = attempts_trace url attempt n
      /\ (forall i, (S i < n)%nat ->
            exists e, attempt_outcome (remote w (served w + i)%nat) = Throw e
                      /\ client_error e = false)
      /\ match out_result out with
         | Ok d => (0 < n)%nat
                   /\ attempt_outcome (remote w (served w + n - 1)%nat) = Ok d
         | Throw e =>
             ((0 < n)%nat
              /\ attempt_outcome (remote w (served w + n - 1)%nat) = Throw e
              /\ (client_error e = true \/ n = remaining))
             \/ (n = 0%nat /\ remaining = 0%nat)
         end.
Proof.
  induction remaining as [| remaining IH]; intros attempt lastError w Hsum.
  - exists 0%nat. unfold makeRequest_loop, throw.
    cbn [out_result out_world out_events fst snd attempts_trace].
    split; [lia |]. split; [lia |]. split; [lia |]. split; [reflexivity |].
    split; [reflexivity |]. split; [intros i Hi; lia |].
    right. split; reflexivity.
  - destruct (attempt_run url key ce cttl w) as (w1 & Hatt & Hs1 & Hr1).
    assert (Hone : forall (r : Result Payload),
               attempt_outcome (remote w (served w)) = r ->
               match r with
               | Ok _ => True
               | Throw e => client_error e = true \/ remaining = 0%nat
               end ->
               let out := (r, w1, [EvFetch GET url None]) in
               (1 <= S remaining)%nat /\ ((0 < S remaining)%nat -> (0 < 1)%nat)
               /\ served (out_world out) = (served w + 1)%nat
               /\ remote (out_world out) = remote w
               /\ out_events out = attempts_trace url attempt 1
               /\ (forall i, (S i < 1)%nat ->
                     exists e,
                       attempt_outcome (remote w (served w + i)%nat) = Throw e
                       /\ client_error e = false)
               /\ match out_result out with
                  | Ok d => (0 < 1)%nat
                            /\ attempt_outcome
                                 (remote w (served w + 1 - 1)%nat) = Ok d
                  | Throw e =>
                      ((0 < 1)%nat
                       /\ attempt_outcome
                            (remote w (served w + 1 - 1)%nat) = Throw e
                       /\ (client_error e = true \/ 1%nat = S remaining))
                      \/ (1%nat = 0%nat /\ S remaining = 0%nat)
                  end).
    { intros r Hr Hwhy. cbn [out_result out_world out_events fst snd].
      replace (served w + 1 - 1)%nat with (served w) by lia.
      split; [lia |]. split; [lia |]. split; [lia |]. split; [exact Hr1 |].
      split; [reflexivity |]. split; [intros i Hi; lia |].
      destruct r as [d | e].
      - split; [lia | exact Hr].
      - left. split; [lia |]. split; [exact Hr |].
        destruct Hwhy as [Hc | ->]; [left; exact Hc | right; reflexivity]. }
    cbn [makeRequest_loop]. unfold try_catch. rewrite Hatt.
    destruct (attempt_outcome (remote w (served w))) as [d | e] eqn:Hout.
    + exists 1%nat. apply (Hone (Ok d)); [reflexivity | exact I].
    + fold (client_error e). destruct (client_error e) eqn:Hce.
      * exists 1%nat. apply (Hone (Throw e)); [reflexivity | left; exact Hce].
      * unfold bind.
        destruct (attempt <? retryAttempts - 1)%nat eqn:Hmore.
        -- apply Nat.ltb_lt in Hmore. unfold retryAttempts in Hmore, Hsum.
           unfold sleep. cbv beta iota.
           set (w2 := {| client_cache := client_cache w1;
                         clock := (clock w1
                                   + retryDelay * (Z.of_nat attempt + 1))%Z;
                         remote := remote w1; served := served w1 |}).
           destruct (IH (S attempt) (Some e) w2 ltac:(unfold retryAttempts; lia))
             as (n & Hn).
           destruct (makeRequest_loop remaining (S attempt) (Some e) url key
                       ce cttl w2) as [[r w3] ev3] eqn:Hloop.
           cbn [out_result out_world out_events fst snd] in Hn.
           destruct Hn as (Hle & Hpos & Hs3 & Hr3 & Hev & Hprev & Hres).
           assert (Hn1 : (0 < n)%nat) by (apply Hpos; lia).
           exists (S n). cbn [out_result out_world out_events fst snd].
           subst w2. simpl in Hs3, Hr3, Hprev, Hres.
           rewrite Hs1 in Hs3, Hprev, Hres. rewrite Hr1 in Hr3, Hprev, Hres.
           split; [lia |]. split; [lia |]. split; [lia |].
           split; [exact Hr3 |]. split.
           { rewrite Hev. destruct n as [| n']; [lia |]. reflexivity. }
           split.
           { intros [| i] Hi.
             - exists e. rewrite Nat.add_0_r. split; [exact Hout | exact Hce].
             - destruct (Hprev i ltac:(lia)) as (e' & He' & Hce').
               exists e'. split; [| exact Hce'].
               rewrite <- He'. f_equal. f_equal. lia. }
           destruct r as [d | e'].
           { destruct Hres as [_ Hres]. split; [lia |].
             rewrite <- Hres. f_equal. f_equal. lia. }
           { destruct Hres as [(_ & Hres & Hwhy) | [Hz _]]; [| lia].
             left. split; [lia |]. split.
             - rewrite <- Hres. f_equal. f_equal. lia.
             - destruct Hwhy as [Hc | ->]; [left; exact Hc | right; reflexivity]. }
        -- apply Nat.ltb_ge in Hmore. unfold retryAttempts in Hmore, Hsum.
           assert (remaining = 0)%nat as -> by lia.
           exists 1%nat. cbn [makeRequest_loop]. unfold ret, throw. simpl.
           apply (Hone (Throw e)); [reflexivity | right; reflexivity].
Qed.

Lemma fetch_count_attempts_trace (url : string) :
  forall n attempt, fetch_count (attempts_trace url attempt n) = n.
Proof.
  induction n as [| n IH]; intros attempt; [reflexivity |].
  destruct n as [| n]; [reflexivity |].
  specialize (IH (S attempt)). unfold fetch_count in *.
  change (S (List.length
                (List.filter is_fetch (attempts_trace url (S attempt) (S n))))
          = S (S n)).
  rewrite IH. reflexivity.
Qed.

Lemma delays_attempts_trace (url : string) :
  forall n attempt,
    delays (attempts_trace url attempt n)
    = List.map (fun k => (retryDelay * Z.of_nat k)%Z)
               (seq (S attempt) (n - 1)).
Proof.
  induction n as [| n IH]; intros attempt; [reflexivity |].
  destruct n as [| n]; [reflexivity |].
  specialize (IH (S attempt)).
  change (delays (attempts_trace url attempt (S (S n))))
    with ((retryDelay * (Z.of_nat attempt + 1))%Z
          :: delays (attempts_trace url (S attempt) (S n))).
  rewrite IH. simpl. rewrite Nat.sub_0_r. f_equal. f_equal. lia.
Qed.

Lemma linear_delays_increase :
  forall m a,
    StronglySorted Z.lt
      (List.map (fun k => (retryDelay * Z.of_nat k)%Z) (seq a m)).
Proof.
  induction m as [| m IH]; intros a; simpl; constructor.
  - apply IH.
  - apply Forall_forall. intros d Hd.
    apply list_elem_of_In, in_map_iff in Hd as (k & <- & Hk).
    apply in_seq in Hk. unfold retryDelay. lia.
Qed.

(** A call of [makeRequest] either answers from the cache without any
    outbound call, or runs the loop from attempt 0. *)
Lemma makeRequest_run (endpoint : string) (params : option JsObject)
    (ce : bool) (cttl : option Z) (w : World) :
  let out := makeRequest endpoint params ce cttl w in
  (exists v, cache_hit endpoint params ce w = Some v
             /\ out_result out = Ok v /\ out_events out = []
             /\ served (out_world out) = served w
             /\ remote (out_world out) = remote w)
  \/ (cache_hit endpoint params ce w = None /\
      exists n : nat,
        (0 < n <= retryAttempts)%nat
        /\ served (out_world out) = (served w + n)%nat
        /\ remote (out_world out) = remote w
        /\ out_events out = attempts_trace (request_url endpoint params) 0 n
        /\ (forall i, (S i < n)%nat ->
              exists e, attempt_outcome (remote w (served w + i)%nat) = Throw e
                        /\ client_error e = false)
        /\ match out_result out with
           | Ok d => attempt_outcome (remote w (served w + n - 1)%nat) = Ok d
           | Throw e =>
               attempt_outcome (remote w (served w + n - 1)%nat) = Throw e
               /\ (client_error e = true \/ n = retryAttempts)
           end).
Proof.
  assert (Hloop : forall c',
    let w' := with_cache c' w in
    let out := makeRequest_loop retryAttempts 0 None
                 (request_url endpoint params)
                 (ApiCache.generateKey endpoint params) ce cttl w' in
    exists n : nat,
      (0 < n <= retryAttempts)%nat
      /\ served (out_world out) = (served w + n)%nat
      /\ remote (out_world out) = remote w
      /\ out_events out = attempts_trace (request_url endpoint params) 0 n
      /\ (forall i, (S i < n)%nat ->
            exists e, attempt_outcome (remote w (served w + i)%nat) = Throw e
                      /\ client_error e = false)
      /\ match out_result out with
         | Ok d => attempt_outcome (remote w (served w + n - 1)%nat) = Ok d
         | Throw e =>
             attempt_outcome (remote w (served w + n - 1)%nat) = Throw e
             /\ (client_error e = true \/ n = retryAttempts)
         end).
  { intros c' w' out.
    destruct (loop_run (request_url endpoint params)
                (ApiCache.generateKey endpoint params) ce cttl
                retryAttempts 0 None w' eq_refl) as (n & Hn).
    fold out in Hn.
    destruct Hn as (Hle & Hpos & Hs & Hr & Hev & Hprev & Hres).
    exists n. simpl in Hs, Hr, Hprev, Hres.
    assert (0 < n)%nat by (apply Hpos; unfold retryAttempts; lia).
    split; [lia |]. split; [exact Hs |]. split; [exact Hr |].
    split; [exact Hev |]. split; [exact Hprev |].
    destruct (out_result out) as [d | e].
    - apply Hres.
    - destruct Hres as [(_ & Hres & Hwhy) | [Hz _]]; [auto | lia]. }
  unfold makeRequest, cache_hit, bind. cbv zeta.
  destruct ce.
  - unfold cache_get.
    destruct (ApiCache.get (ApiCache.generateKey endpoint params) (clock w)
                (client_cache w)) as [[v |] c'] eqn:Hget;
      cbn [fst snd].
    + destruct (payload_truthy v) eqn:Htruthy.
      * left. exists v. unfold ret. simpl. auto.
      * right. split; [reflexivity |].
        specialize (Hloop c'). cbv zeta in Hloop.
        destruct (makeRequest_loop retryAttempts 0 None
                    (request_url endpoint params)
                    (ApiCache.generateKey endpoint params) true cttl
                    (with_cache c' w)) as [[r w2] ev2].
        exact Hloop.
    + right. split; [reflexivity |].
      specialize (Hloop c'). cbv zeta in Hloop.
      destruct (makeRequest_loop retryAttempts 0 None
                  (request_url endpoint params)
                  (ApiCache.generateKey endpoint params) true cttl
                  (with_cache c' w)) as [[r w2] ev2].
      exact Hloop.
  - right. split; [reflexivity |].
    specialize (Hloop (client_cache w)). cbv zeta in Hloop.
    unfold ret. cbn [fst snd].
    replace (with_cache (client_cache w) w) with w in Hloop
      by (destruct w; reflexivity).
    destruct (makeRequest_loop retryAttempts 0 None
                (request_url endpoint params)
                (ApiCache.generateKey endpoint params) false cttl w)
      as [[r w2] ev2].
    exact Hloop.
Qed.

(** C3. A call of [makeRequest] makes at most 3 outbound attempts; the
    wait before attempt [k+1] is [retryDelay * k], so the waits are
    [1000, 2000, ...] and strictly increase; an error it ends in is the
    failure of its last attempt; and when nothing is taken from the cache
    and all three attempts fail with errors not taken for client errors, it
    makes exactly three attempts and throws the third failure. *)
Theorem retry_bounded_linear_backoff (endpoint : string)
    (params : option JsObject) (cacheEnabled : bool) (cacheTtl : option Z)
    (w : World) :
  let out := makeRequest endpoint params cacheEnabled cacheTtl w in
  exists n : nat,
    (n <= 3)%nat
    /\ fetch_count (out_events out) = n
    /\ out_events out = attempts_trace (request_url endpoint params) 0 n
    /\ delays (out_events out)
       = List.map (fun k => (retryDelay * Z.of_nat k)%Z) (seq 1 (n - 1))
    /\ StronglySorted Z.lt (delays (out_events out))
    /\ (forall e, out_result out = Throw e ->
          (0 < n)%nat
          /\ attempt_outcome (remote w (served w + n - 1)%nat) = Throw e)
    /\ (cache_hit endpoint params cacheEnabled w = None ->
        (forall i, (i < 3)%nat ->
           exists e, attempt_outcome (remote w (served w + i)%nat) = Throw e
                     /\ client_error e = false) ->
        n = 3%nat
        /\ out_events out
           = [ EvFetch GET (request_url endpoint params) None;
               EvSleep 1000;
               EvFetch GET (request_url endpoint params) None;
               EvSleep 2000;
               EvFetch GET (request_url endpoint params) None ]
        /\ exists e, attempt_outcome (remote w (served w + 2)%nat) = Throw e
                     /\ out_result out = Throw e).
Proof.
  intros out.
  destruct (makeRequest_run endpoint params cacheEnabled cacheTtl w)
    as [(v & Hhit & Hres & Hev & _) | (Hmiss & n & Hn & _ & _ & Hev & Hprev & Hres)];
    fold out in Hres, Hev.
  - exists 0%nat. rewrite Hev, Hres. simpl.
    split; [lia |]. split; [reflexivity |]. split; [reflexivity |].
    split; [reflexivity |]. split; [constructor |].
    split; [intros e He; discriminate He |].
    intros Hnone. rewrite Hnone in Hhit. discriminate Hhit.
  - exists n. unfold retryAttempts in Hn, Hres.
    split; [lia |]. rewrite Hev.
    split; [apply fetch_count_attempts_trace |]. split; [reflexivity |].
    rewrite delays_attempts_trace.
    split; [reflexivity |]. split; [apply linear_delays_increase |].
    split.
    + intros e He. rewrite He in Hres. split; [lia | apply Hres].
    + intros _ Hall.
      assert (Hn3 : n = 3%nat).
      { destruct (Hall (n - 1)%nat ltac:(lia)) as (e & He & Hce).
        replace (served w + (n - 1))%nat with (served w + n - 1)%nat in He
          by lia.
        destruct (out_result out) as [d | e'].
        - rewrite He in Hres. discriminate Hres.
        - destruct Hres as [Hres [Hc | Hlast]]; [| exact Hlast].
          rewrite He in Hres. inversion Hres; subst. congruence. }
      subst n. split; [reflexivity |]. split; [reflexivity |].
      destruct (Hall 2%nat ltac:(lia)) as (e & He & Hce).
      exists e. split; [exact He |].
      replace (served w + 3 - 1)%nat with (served w + 2)%nat in Hres by lia.
      destruct (out_result out) as [d | e'].
      * rewrite He in Hres. discriminate Hres.
      * destruct Hres as [Hres _]. rewrite He in Hres. symmetry. exact Hres.
Qed.

Lemma retry_bounded_linear_backoff_witness :
  out_events (makeRequest "/api/v0/sites" None true None world_down)
  = [ EvFetch GET sites_url None; EvSleep 1000;
      EvFetch GET sites_url None; EvSleep 2000;
      EvFetch GET sites_url None ]
  /\ out_result (makeRequest "/api/v0/sites" None true None world_down)
     = Throw (api_error (JStr "Service Unavailable") (JNum 503)).
Proof.
  destruct (retry_bounded_linear_backoff "/api/v0/sites" None true None
              world_down) as (n & _ & _ & _ & _ & _ & _ & Hall).
  destruct Hall as (_ & Hev & e & He & Hres).
  - reflexivity.
  - intros i Hi. exists (api_error (JStr "Service Unavailable") (JNum 503)).
    split; reflexivity.
  - split; [exact Hev |]. rewrite Hres. rewrite <- He. reflexivity.
Defined.

(** C1, at replies the service can send. A 404 whose body is not JSON, or
    whose JSON body has no [status] member, is retried: three attempts and
    two waits. A 500 whose body carries [status: 404] is not retried. The
    status category of the response decides neither; the text of the error
    message, built from the body, does. A 404 whose body repeats the
    status is given up after one attempt. *)
Theorem retry_decided_by_message_text :
  fetch_count
    (out_events (makeRequest "/api/v0/sites" None true None
                   (new_client (fun _ => reply_404_html) 0))) = 3%nat
  /\ delays
       (out_events (makeRequest "/api/v0/sites" None true None
                      (new_client (fun _ => reply_404_html) 0)))
     = [1000; 2000]%Z
  /\ fetch_count
       (out_events (makeRequest "/api/v0/sites" None true None
                      (new_client (fun _ => reply_404_plain) 0))) = 3%nat
  /\ fetch_count
       (out_events (makeRequest "/api/v0/sites" None true None
                      (new_client (fun _ => reply_500_says_404) 0))) = 1%nat
  /\ fetch_count
       (out_events (makeRequest "/api/v0/sites" None true None
                      (new_client (fun _ => reply_404) 0))) = 1%nat.
Proof. repeat split; vm_compute; reflexivity. Qed.

(** * Query planner *)

Lemma multiple_sites_count (params : JsObject) :
  siteCodes_typed params ->
  multiple_sites params = (1 <? site_count params)%nat.
Proof.
  unfold siteCodes_typed, multiple_sites, site_count.
  intros [-> | [sites ->]]; reflexivity.
Qed.

Lemma attempts_trace_all_GET (url : string) :
  forall n attempt,
    Forall (fun ev => is_fetch ev = true -> ev = EvFetch GET url None)
           (attempts_trace url attempt n).
Proof.
  induction n as [| n IH]; intros attempt; [constructor |].
  destruct n as [| n].
  - constructor; [reflexivity | constructor].
  - change (attempts_trace url attempt (S (S n)))
      with (EvFetch GET url None
            :: EvSleep (retryDelay * (Z.of_nat attempt + 1))
            :: attempts_trace url (S attempt) (S n)).
    constructor; [reflexivity |].
    constructor; [intros H; discriminate H | apply IH].
Qed.

Lemma makeRequest_all_GET (endpoint : string) (params : option JsObject)
    (ce : bool) (cttl : option Z) (w : World) :
  Forall (fun ev => is_fetch ev = true
                    -> ev = EvFetch GET (request_url endpoint params) None)
         (out_events (makeRequest endpoint params ce cttl w)).
Proof.
  destruct (makeRequest_run endpoint params ce cttl w)
    as [(v & _ & _ & -> & _) | (_ & n & _ & _ & _ & -> & _)].
  - constructor.
  - apply attempts_trace_all_GET.
Qed.

Lemma cache_hit_empty (endpoint : string) (params : option JsObject)
    (ce : bool) (w : World) :
  ApiCache.cache (client_cache w) = ∅ -> cache_hit endpoint params ce w = None.
Proof.
  intros Hempty. unfold cache_hit, ApiCache.get. rewrite Hempty.
  rewrite lookup_empty. destruct ce; reflexivity.
Qed.

(** The multi-site branch of [queryData]: no outbound call on a cache hit,
    otherwise exactly one POST. *)
Lemma queryData_POST_events (params : JsObject) (w : World) :
  multiple_sites params = true ->
  out_events (queryData params w) = []
  \/ out_events (queryData params w)
     = [EvFetch POST (baseUrl +:+ query_endpoint) (Some params)].
Proof.
  intros Hmulti. unfold queryData. rewrite Hmulti. unfold bind, cache_get.
  destruct (ApiCache.get _ (clock w) (client_cache w)) as [cached c'].
  set (w' := with_cache c' w).
  assert (Hpost : forall (k : Z * Body -> M Payload),
            (forall x w0, out_events (k x w0) = []) ->
            out_events
              (let '(r, w1, ev1) :=
                 match fetch POST (baseUrl +:+ query_endpoint) (Some params) w'
                 with
                 | (Ok a, w1, ev1) =>
                     let '(r, w2, ev2) := k a w1 in (r, w2, (ev1 ++ ev2)%list)
                 | (Throw e, w1, ev1) => (Throw e, w1, ev1)
                 end in (r, w1, ([] ++ ev1)%list))
            = [EvFetch POST (baseUrl +:+ query_endpoint) (Some params)]).
  { intros k Hk. unfold fetch.
    destruct (result (remote w' (served w'))) as [msg | st b]; [reflexivity |].
    match goal with |- context [k ?x ?w0] =>
      specialize (Hk x w0); destruct (k x w0) as [[r w2] ev2] end.
    simpl in Hk. subst ev2. reflexivity. }
  assert (Hk : forall (x : Z * Body) (w0 : World),
            out_events
              ((if negb (response_ok (fst x))
                then
                  errorData <- response_json (snd x) ;;
                  throw (api_error (fst (fst errorData)) (snd (fst errorData)))
                else
                  data <- response_json (snd x) ;;
                  cache_set
                    (ApiCache.generateKey "/api/v0/data/query" (Some params))
                    (snd data) None ;;;
                  ret (snd data)) w0) = []).
  { intros [st b] w0. simpl.
    destruct (response_ok st); destruct b; reflexivity. }
  destruct cached as [v |]; [destruct (payload_truthy v) |].
  - left. reflexivity.
  - right. apply (Hpost _ Hk).
  - right. apply (Hpost _ Hk).
Qed.

(** C2. A data-availability query whose [siteCodes] holds more than one
    site goes out as a POST to the query endpoint with the parameter object
    as JSON body; with one site or none it goes out as a GET whose URL
    carries the flattened parameters in the query string. Every outbound
    call of the query has that shape, and with nothing in the cache the
    query does start with such a call. *)
Theorem queryData_transport (params : JsObject) (w : World) :
  siteCodes_typed params ->
  let out := queryData params w in
  ((1 < site_count params)%nat ->
     Forall (fun ev => is_fetch ev = true ->
                       ev = EvFetch POST (baseUrl +:+ query_endpoint)
                                    (Some params))
            (out_events out)
     /\ (ApiCache.cache (client_cache w) = ∅ ->
         out_events out
         = [EvFetch POST (baseUrl +:+ query_endpoint) (Some params)]))
  /\ ((site_count params <= 1)%nat ->
        Forall (fun ev => is_fetch ev = true ->
                          ev = EvFetch GET
                                 (request_url query_endpoint
                                    (Some (single_site_params params)))
                                 None)
               (out_events out)
        /\ (ApiCache.cache (client_cache w) = ∅ ->
            exists rest,
              out_events out
              = EvFetch GET
                  (request_url query_endpoint
                     (Some (single_site_params params))) None :: rest)).
Proof.
  intros Htyped out. pose proof (multiple_sites_count params Htyped) as Hmulti.
  split; intros Hcount.
  - assert (Hm : multiple_sites params = true)
      by (rewrite Hmulti; apply Nat.ltb_lt; exact Hcount).
    split.
    + destruct (queryData_POST_events params w Hm) as [Hev | Hev];
        fold out in Hev; rewrite Hev.
      * constructor.
      * constructor; [reflexivity | constructor].
    + intros Hempty. subst out. unfold queryData. rewrite Hm.
      unfold bind, cache_get, ApiCache.get. rewrite Hempty, lookup_empty.
      unfold fetch.
      destruct (result _) as [msg | st b]; [reflexivity |].
      simpl. destruct (response_ok st); destruct b; reflexivity.
  - assert (Hm : multiple_sites params = false)
      by (rewrite Hmulti; apply Nat.ltb_ge; exact Hcount).
    assert (Hout : out = makeRequest query_endpoint
                           (Some (single_site_params params)) true
                           (Some (30 * 60 * 1000)%Z) w).
    { subst out. unfold queryData. rewrite Hm. reflexivity. }
    rewrite Hout. split; [apply makeRequest_all_GET |].
    intros Hempty.
    destruct (makeRequest_run query_endpoint
                (Some (single_site_params params)) true
                (Some (30 * 60 * 1000)%Z) w)
      as [(v & Hhit & _) | (_ & n & Hn & _ & _ & -> & _)].
    + rewrite (cache_hit_empty _ _ _ _ Hempty) in Hhit. discriminate Hhit.
    + destruct n as [| [| n]]; [lia | |]; eexists; reflexivity.
Qed.

Lemma queryData_transport_witness :
  out_events (queryData two_site_params world_query)
  = [EvFetch POST "https://data.neonscience.org/api/v0/data/query"
             (Some two_site_params)]
  /\ exists rest,
       out_events (queryData one_site_params world_query)
       = EvFetch GET
           ("https://data.neonscience.org/api/v0/data/query"
            +:+ "?productCode=DP1.10003.001&startDateMonth=2020-01"
            +:+ "&endDateMonth=2020-12&siteCode=HARV")
           None :: rest.
Proof.
  split.
  - apply (queryData_transport two_site_params world_query).
    + right. eexists. reflexivity.
    + vm_compute. lia.
    + reflexivity.
  - apply (queryData_transport one_site_params world_query).
    + right. eexists. reflexivity.
    + vm_compute. lia.
    + reflexivity.
Defined.

(** The multi-site branch stores a fresh result through
    [this.cache.set(cacheKey, data.data)], without a TTL: the entry gets the
    default TTL of the cache. *)
Lemma queryData_POST_stores_default_ttl (params : JsObject) (w : World)
    (st : Z) (detail status : JsVal) (d : Payload) :
  multiple_sites params = true ->
  ApiCache.cache (client_cache w)
    !! ApiCache.generateKey query_endpoint (Some params) = None ->
  result (remote w (served w)) = Response st (BodyJson detail status d) ->
  response_ok st = true ->
  ApiCache.cache (client_cache (out_world (queryData params w)))
    !! ApiCache.generateKey query_endpoint (Some params)
  = Some {| data := d;
            timestamp := (clock w + elapsed (remote w (served w)))%Z;
            ttl := ApiCache.defaultTtl (client_cache w) |}.
Proof.
  intros Hmulti Hmiss Hreply Hok. unfold queryData. rewrite Hmulti.
  unfold bind, cache_get, ApiCache.get. unfold query_endpoint in Hmiss.
  rewrite Hmiss. unfold fetch. cbn [client_cache clock remote served with_cache].
  rewrite Hreply. cbn [fst snd negb]. rewrite Hok.
  cbn. apply lookup_insert_eq.
Qed.

(** C4, on both paths with an empty cache and a successful reply at time
    1000: the single-site GET path stores the result with a TTL of 30
    minutes, the multi-site POST path with the default TTL of one hour. *)
Theorem queryData_POST_ttl_is_one_hour :
  ApiCache.cache (client_cache (out_world (queryData one_site_params world_query)))
    !! ("/api/v0/data/query?endDateMonth=2020-12&productCode=DP1.10003.001"
        +:+ "&siteCode=HARV&startDateMonth=2020-01")
  = Some {| data := PJson (JObj [("siteCodes", JArr [])]);
            timestamp := 1040; ttl := 1800000 |}
  /\ ApiCache.cache
       (client_cache (out_world (queryData two_site_params world_query)))
       !! ("/api/v0/data/query?endDateMonth=2020-12&productCode=DP1.10003.001"
           +:+ "&siteCodes=HARV,BART&startDateMonth=2020-01")
     = Some {| data := PJson (JObj [("siteCodes", JArr [])]);
               timestamp := 1040; ttl := 3600000 |}.
Proof. split; vm_compute; reflexivity. Qed.

(** * Running the monad *)

Lemma bind_run {A B} (m : M A) (k : A -> M B) (w : World) :
  bind m k w
  = match out_result (m w) with
    | Ok a =>
        (out_result (k a (out_world (m w))),
         out_world (k a (out_world (m w))),
         (out_events (m w) ++ out_events (k a (out_world (m w))))%list)
    | Throw e => (Throw e, out_world (m w), out_events (m w))
    end.
Proof.
  unfold bind, out_result, out_world, out_events.
  destruct (m w) as [[[a | e] w1] ev1]; simpl; [| reflexivity].
  destruct (k a w1) as [[r w2] ev2]. reflexivity.
Qed.

Lemma try_catch_run {A} (m : M A) (handler : JsError -> M A) (w : World) :
  try_catch m handler w
  = match out_result (m w) with
    | Ok a => (Ok a, out_world (m w), out_events (m w))
    | Throw e =>
        (out_result (handler e (out_world (m w))),
         out_world (handler e (out_world (m w))),
         (out_events (m w) ++ out_events (handler e (out_world (m w))))%list)
    end.
Proof.
  unfold try_catch, out_result, out_world, out_events.
  destruct (m w) as [[[a | e] w1] ev1]; simpl; [reflexivity |].
  destruct (handler e w1) as [[r w2] ev2]. reflexivity.
Qed.

Section Keeps.

Variable I : World -> Prop.

Lemma keeps_ret {A} (a : A) (post : A -> Prop) :
  post a -> keeps I (ret a) post.
Proof.
  intros Ha w Hw. split; [exact Hw |].
  intros a' Heq. inversion Heq; subst. exact Ha.
Qed.


Lemma keeps_bind {A B} (m : M A) (k : A -> M B) (mid : A -> Prop)
    (post : B -> Prop) :
  keeps I m mid -> (forall a, mid a -> keeps I (k a) post) ->
  keeps I (bind m k) post.
Proof.
  intros Hm Hk w Hw. rewrite bind_run.
  destruct (Hm w Hw) as [Hw1 Hres].
  destruct (out_result (m w)) as [a | e].
  - apply (Hk a (Hres a eq_refl) _ Hw1).
  - split; [exact Hw1 | intros b Heq; discriminate Heq].
Qed.

Lemma keeps_try_catch {A} (m : M A) (handler : JsError -> M A)
    (post : A -> Prop) :
  keeps I m post -> (forall e, keeps I (handler e) post) ->
  keeps I (try_catch m handler) post.
Proof.
  intros Hm Hh w Hw. rewrite try_catch_run.
  destruct (Hm w Hw) as [Hw1 Hres].
  destruct (out_result (m w)) as [a | e].
  - split; [exact Hw1 | exact Hres].
  - apply (Hh e _ Hw1).
Qed.

Lemma keeps_weaken {A} (m : M A) (post post' : A -> Prop) :
  keeps I m post -> (forall a, post a -> post' a) -> keeps I m post'.
Proof.
  intros Hm Himp w Hw. destruct (Hm w Hw) as [Hw1 Hres].
  split; [exact Hw1 | intros a Ha; apply Himp, Hres, Ha].
Qed.

End Keeps.

(** A handler that returns makes the whole [try] return. *)
Lemma try_catch_returns {A} (m : M A) (handler : JsError -> M A) (w : World) :
  (forall e w', exists a, out_result (handler e w') = Ok a) ->
  exists a, out_result (try_catch m handler w) = Ok a.
Proof.
  intros Hh. rewrite try_catch_run.
  destruct (out_result (m w)) as [a | e]; [exists a; reflexivity |].
  apply Hh.
Qed.

(** * Payload invariants *)

Section PayloadInvariant.

Variable Q : Payload -> Prop.












End PayloadInvariant.

(** * Location resolver *)

Section NothingToFind.

Variables (Q : Payload -> Prop) (site : string).
Hypothesis Hloc : forall loc, Q (PLocation loc) -> siteCode loc <> site.
Hypothesis Hcat :
  forall locs, Q (PLocations locs) -> List.filter (is_tower_at site) locs = [].






End NothingToFind.




Lemma lookup_tower_returns (name site : string) (w : World) :
  exists found, out_result (lookup_tower name site w) = Ok found.
Proof.
  unfold lookup_tower. apply try_catch_returns.
  intros e w'. exists None. reflexivity.
Qed.

Lemma findTowersAtSite_returns (site : string) (w : World) :
  exists towers, out_result (findTowersAtSite site w) = Ok towers.
Proof.
  unfold findTowersAtSite. apply try_catch_returns.
  intros e w'. exists []. reflexivity.
Qed.
















(** * Outbound calls of the resolver *)

Lemma events_bind {A B} (E : Event -> Prop) (m : M A) (k : A -> M B)
    (w : World) :
  Forall E (out_events (m w)) ->
  (forall a, out_result (m w) = Ok a ->
             Forall E (out_events (k a (out_world (m w))))) ->
  Forall E (out_events (bind m k w)).
Proof.
  intros Hm Hk. rewrite bind_run.
  destruct (out_result (m w)) as [a | e]; cbn [out_events snd].
  - apply Forall_app. split; [exact Hm | apply Hk; reflexivity].
  - exact Hm.
Qed.

Lemma events_try_catch {A} (E : Event -> Prop) (m : M A)
    (handler : JsError -> M A) (w : World) :
  Forall E (out_events (m w)) ->
  (forall e, Forall E (out_events (handler e (out_world (m w))))) ->
  Forall E (out_events (try_catch m handler w)).
Proof.
  intros Hm Hh. rewrite try_catch_run.
  destruct (out_result (m w)) as [a | e]; cbn [out_events snd].
  - exact Hm.
  - apply Forall_app. split; [exact Hm | apply Hh].
Qed.

Section Emits.

Variable E : Event -> Prop.

Lemma emits_ret {A} (a : A) : emits E (ret a).
Proof. intros w. constructor. Qed.

Lemma emits_throw {A} (e : JsError) : emits E (@throw A e).
Proof. intros w. constructor. Qed.

Lemma emits_bind {A B} (m : M A) (k : A -> M B) :
  emits E m -> (forall a, emits E (k a)) -> emits E (bind m k).
Proof.
  intros Hm Hk w. apply events_bind; [apply Hm |]. intros a _. apply Hk.
Qed.

Lemma emits_try_catch {A} (m : M A) (handler : JsError -> M A) :
  emits E m -> (forall e, emits E (handler e)) ->
  emits E (try_catch m handler).
Proof.
  intros Hm Hh w. apply events_try_catch; [apply Hm |]. intros e. apply Hh.
Qed.

End Emits.

Lemma emits_weaken {A} (E E' : Event -> Prop) (m : M A) :
  emits E m -> (forall ev, E ev -> E' ev) -> emits E' m.
Proof. intros Hm Himp w. eapply Forall_impl; [apply Hm | exact Himp]. Qed.

Lemma fetch_count_app (evs1 evs2 : list Event) :
  fetch_count (evs1 ++ evs2) = (fetch_count evs1 + fetch_count evs2)%nat.
Proof. unfold fetch_count. rewrite List.filter_app, length_app. reflexivity. Qed.

Lemma costs_ret {A} (a : A) : costs 0 (ret a).
Proof. intros w. simpl. unfold fetch_count. simpl. lia. Qed.

Lemma costs_bind {A B} (n1 n2 : nat) (m : M A) (k : A -> M B) :
  costs n1 m -> (forall a, costs n2 (k a)) -> costs (n1 + n2) (bind m k).
Proof.
  intros Hm Hk w. rewrite bind_run. specialize (Hm w).
  destruct (out_result (m w)) as [a | e]; cbn [out_events snd].
  - rewrite fetch_count_app. specialize (Hk a (out_world (m w))). lia.
  - lia.
Qed.

Lemma costs_try_catch {A} (n1 n2 : nat) (m : M A) (handler : JsError -> M A) :
  costs n1 m -> (forall e, costs n2 (handler e)) ->
  costs (n1 + n2) (try_catch m handler).
Proof.
  intros Hm Hh w. rewrite try_catch_run. specialize (Hm w).
  destruct (out_result (m w)) as [a | e]; cbn [out_events snd].
  - lia.
  - rewrite fetch_count_app. specialize (Hh e (out_world (m w))). lia.
Qed.

Lemma costs_weaken {A} (n n' : nat) (m : M A) :
  costs n m -> (n <= n')%nat -> costs n' m.
Proof. intros Hm Hle w. specialize (Hm w). lia. Qed.

Lemma costs_makeRequest (endpoint : string) (params : option JsObject)
    (ce : bool) (cttl : option Z) :
  costs 3 (makeRequest endpoint params ce cttl).
Proof.
  intros w.
  destruct (makeRequest_run endpoint params ce cttl w)
    as [(v & _ & _ & -> & _) | (_ & n & Hn & _ & _ & -> & _)].
  - unfold fetch_count. simpl. lia.
  - rewrite fetch_count_attempts_trace. unfold retryAttempts in Hn. lia.
Qed.

Lemma emits_makeRequest (endpoint : string) (params : option JsObject)
    (ce : bool) (cttl : option Z) :
  emits (calls (fun url => url = request_url endpoint params))
        (makeRequest endpoint params ce cttl).
Proof.
  intros w. eapply Forall_impl; [apply makeRequest_all_GET |].
  intros [m url body | ms | text e] Hev; simpl; [| exact I | exact I].
  specialize (Hev eq_refl). inversion Hev; subst. auto.
Qed.

Lemma emits_getSiteLocations :
  emits (calls (fun url => url = catalog_url)) getSiteLocations.
Proof.
  unfold getSiteLocations. apply emits_bind.
  - apply (emits_makeRequest "/api/v0/locations/sites" None true None).
  - intros [loc | locs | v]; simpl;
      [apply emits_throw | apply emits_ret | apply emits_throw].
Qed.

Lemma emits_getLocation (name : string) :
  emits (calls (fun url => url = location_url name))
        (getLocation name None None None).
Proof.
  unfold getLocation. apply emits_bind.
  - apply (emits_makeRequest ("/api/v0/locations/" +:+ name) (Some []) true None).
  - intros [loc | locs | v]; simpl;
      [apply emits_ret | apply emits_throw | apply emits_throw].
Qed.

Lemma emits_lookup_tower (name site : string) :
  emits (calls (fun url => url = location_url name)) (lookup_tower name site).
Proof.
  unfold lookup_tower. apply emits_try_catch.
  - apply emits_bind; [apply emits_getLocation |].
    intros tower. destruct (String.eqb _ _); apply emits_ret.
  - intros e. apply emits_ret.
Qed.

Lemma calls_impl (P P' : string -> Prop) (ev : Event) :
  (forall url, P url -> P' url) -> calls P ev -> calls P' ev.
Proof.
  intros Himp. destruct ev as [m url body | ms | text e]; simpl; [| auto | auto].
  intros (Hm & Hb & Hu). auto.
Qed.

Lemma emits_guess_towers (site : string) :
  forall names towers,
    emits (calls (fun url => exists name,
                    In name names /\ url = location_url name))
          (guess_towers site names towers).
Proof.
  induction names as [| name names IH]; intros towers; cbn [guess_towers].
  - apply emits_ret.
  - apply emits_bind.
    + eapply emits_weaken; [apply emits_lookup_tower |].
      intros ev. apply calls_impl. intros url ->.
      exists name. split; [left; reflexivity | reflexivity].
    + intros found. eapply emits_weaken; [apply IH |].
      intros ev. apply calls_impl. intros url (name' & Hin & ->).
      exists name'. split; [right; exact Hin | reflexivity].
Qed.

Lemma emits_catalog_search (site : string) :
  emits (calls (site_url site)) (catalog_search site).
Proof.
  unfold catalog_search. apply emits_bind.
  - eapply emits_weaken; [apply emits_getSiteLocations |].
    intros ev. apply calls_impl. intros url ->. left. reflexivity.
  - intros locs. destruct (_ =? _)%nat; [| apply emits_ret].
    eapply emits_weaken; [apply emits_guess_towers |].
    intros ev. apply calls_impl. intros url Hname. right. exact Hname.
Qed.

Lemma emits_srer_shortcut (site : string) :
  emits (calls (site_url site)) (srer_shortcut site).
Proof.
  unfold srer_shortcut. destruct (String.eqb site "SRER"); [| apply emits_ret].
  eapply emits_weaken; [apply emits_lookup_tower |].
  intros ev. apply calls_impl. intros url ->. right.
  exists "TOWER104454". split; [| reflexivity].
  unfold possibleTowerNames. simpl. auto.
Qed.

Lemma emits_findTowersAtSite (site : string) :
  emits (calls (site_url site)) (findTowersAtSite site).
Proof.
  unfold findTowersAtSite. apply emits_try_catch.
  - apply emits_bind; [apply emits_srer_shortcut |].
    intros [tower |]; [apply emits_ret | apply emits_catalog_search].
  - intros e. apply emits_bind; [| intros _; apply emits_ret].
    intros w. constructor; [exact I | constructor].
Qed.

Lemma emits_search_sites :
  forall sites matching,
    emits (calls (sites_url_of sites)) (search_sites sites matching).
Proof.
  induction sites as [| s sites IH]; intros matching; cbn [search_sites].
  - apply emits_ret.
  - apply emits_bind.
    + apply emits_try_catch; [| intros e; apply emits_ret].
      apply emits_bind; [| intros towers; apply emits_ret].
      eapply emits_weaken; [apply emits_findTowersAtSite |].
      intros ev. apply calls_impl. intros url Hurl. right.
      exists s. split; [left; reflexivity | exact Hurl].
    + intros found. eapply emits_weaken; [apply IH |].
      intros ev. apply calls_impl. intros url [-> | (s' & Hin & Hurl)].
      * left. reflexivity.
      * right. exists s'. split; [right; exact Hin | exact Hurl].
Qed.

Lemma costs_getSiteLocations : costs 3 getSiteLocations.
Proof.
  unfold getSiteLocations.
  apply (costs_bind 3 0); [apply costs_makeRequest |].
  intros [loc | locs | v] w; unfold fetch_count; simpl; lia.
Qed.

Lemma costs_lookup_tower (name site : string) :
  costs 3 (lookup_tower name site).
Proof.
  unfold lookup_tower. apply (costs_try_catch 3 0).
  - apply (costs_bind 3 0).
    + unfold getLocation. apply (costs_bind 3 0); [apply costs_makeRequest |].
      intros [loc | locs | v] w; unfold fetch_count; simpl; lia.
    + intros tower w. destruct (String.eqb _ _); unfold fetch_count; simpl; lia.
  - intros e. apply costs_ret.
Qed.

Lemma costs_guess_towers (site : string) :
  forall names towers,
    costs (3 * List.length names) (guess_towers site names towers).
Proof.
  induction names as [| name names IH]; intros towers; cbn [guess_towers].
  - apply costs_ret.
  - eapply costs_weaken.
    + apply (costs_bind 3 (3 * List.length names));
        [apply costs_lookup_tower | intros found; apply IH].
    + simpl. lia.
Qed.

Lemma costs_findTowersAtSite (site : string) :
  costs 24 (findTowersAtSite site).
Proof.
  unfold findTowersAtSite. apply (costs_try_catch 24 0).
  - apply (costs_bind 3 21).
    + unfold srer_shortcut. destruct (String.eqb site "SRER").
      * apply costs_lookup_tower.
      * eapply costs_weaken; [apply costs_ret | lia].
    + intros [tower |].
      * eapply costs_weaken; [apply costs_ret | lia].
      * unfold catalog_search.
        apply (costs_bind 3 18); [apply costs_getSiteLocations |].
        intros locs. destruct (_ =? _)%nat.
        -- apply (costs_guess_towers site (possibleTowerNames site)).
        -- eapply costs_weaken; [apply costs_ret | lia].
  - intros e w. unfold fetch_count. simpl. lia.
Qed.

Lemma costs_search_sites :
  forall sites matching,
    costs (24 * List.length sites) (search_sites sites matching).
Proof.
  induction sites as [| s sites IH]; intros matching; cbn [search_sites].
  - apply costs_ret.
  - eapply costs_weaken.
    + apply (costs_bind 24 (24 * List.length sites)); [| intros found; apply IH].
      apply (costs_try_catch 24 0); [| intros e; apply costs_ret].
      apply (costs_bind 24 0); [apply costs_findTowersAtSite |].
      intros towers. apply costs_ret.
    + simpl. lia.
Qed.

Lemma costs_cross_site_search : costs 243 cross_site_search.
Proof.
  unfold cross_site_search. apply (costs_try_catch 243 0).
  - apply (costs_bind 3 240); [apply costs_getSiteLocations |].
    intros locs. eapply costs_weaken; [apply costs_search_sites |].
    rewrite length_firstn. lia.
  - intros e w. unfold fetch_count. simpl. lia.
Qed.

Lemma search_sites_result :
  forall sites matching w,
    out_result (search_sites sites matching w)
    = Ok (matching ++ List.concat (per_site_towers sites w))%list.
Proof.
  induction sites as [| s sites IH]; intros matching w;
    cbn [search_sites per_site_towers].
  - simpl. rewrite app_nil_r. reflexivity.
  - rewrite bind_run, try_catch_run, bind_run.
    destruct (findTowersAtSite_returns (siteCode s) w) as [towers Hr].
    rewrite Hr. cbn [out_result out_world out_events fst snd ret].
    rewrite IH. simpl. rewrite app_assoc. reflexivity.
Qed.

Lemma cross_site_search_guess_issued :
  In (EvFetch GET "https://data.neonscience.org/api/v0/locations/TOWERABBY"
              None)
     (out_events (searchLocationsByType "TOWER" None world_no_towers)).
Proof. vm_compute. right. left. reflexivity. Qed.

(** C9 as stated fails: on a catalog that lists the site ABBY without any
    tower, the cross-site search goes on to the by-name lookups of the
    guessed tower names of ABBY, so its outbound calls are not all catalog
    fetches. *)
Lemma cross_site_search_issues_lookups :
  ~ only_catalog_calls
      (out_events (searchLocationsByType "TOWER" None world_no_towers)).
Proof.
  unfold only_catalog_calls. intros Hall.
  eapply Forall_forall in Hall;
    [| apply list_elem_of_In; exact cross_site_search_guess_issued].
  simpl in Hall. destruct Hall as (_ & _ & Hurl).
  vm_compute in Hurl. discriminate Hurl.
Qed.

(** C9, amended. Without a site code, [searchLocationsByType] runs
    [findTowersAtSite], the whole chain, for each of the first 10 entries
    of the site catalog in turn and returns their towers in that order;
    each of its outbound calls is the catalog fetch or the by-name lookup
    of a guessed tower name of one of these 10 sites; and it makes at most
    243 outbound calls. *)
Theorem cross_site_search_capped (ty : string) (w : World) :
  let out := searchLocationsByType ty None w in
  out_result out
  = match out_result (getSiteLocations w) with
    | Ok catalog =>
        Ok (List.concat
              (per_site_towers (firstn 10 catalog)
                               (out_world (getSiteLocations w))))
    | Throw _ => Ok []
    end
  /\ Forall
       (calls (sites_url_of
                 match out_result (getSiteLocations w) with
                 | Ok catalog => firstn 10 catalog
                 | Throw _ => []
                 end))
       (out_events out)
  /\ (fetch_count (out_events out) <= 243)%nat.
Proof.
  change (searchLocationsByType ty None w) with (cross_site_search w).
  cbv zeta. split; [| split].
  - unfold cross_site_search. rewrite try_catch_run, bind_run.
    destruct (out_result (getSiteLocations w)) as [catalog | e].
    + cbn [out_result out_world out_events fst snd].
      rewrite search_sites_result. reflexivity.
    + reflexivity.
  - unfold cross_site_search. apply events_try_catch.
    + apply events_bind.
      * eapply Forall_impl; [apply emits_getSiteLocations |].
        intros ev. apply calls_impl. intros url ->. left. reflexivity.
      * intros catalog ->. apply emits_search_sites.
    + intros e. constructor; [exact I | constructor].
  - apply costs_cross_site_search.
Qed.


(** * Further properties of the response cache *)

(** X1. Reading back what was written: [get] after [set] on the same key
    returns the value exactly when no more than the entry's TTL has passed
    since the [set]; the TTL is the one given, or the default of the cache
    when none or 0 is given. A negative TTL therefore stores an entry that
    no [get] returns. *)
Theorem set_then_get (key : CacheKey) (v : Payload) (ttl' : option Z)
    (t t' : Z) (c : ApiCache.t) :
  fst (ApiCache.get key t' (ApiCache.set key v ttl' t c))
  = if (t' - t >? num_or ttl' (ApiCache.defaultTtl c))%Z then None else Some v.
Proof.
  unfold ApiCache.get. rewrite set_lookup. simpl.
  destruct (_ >? _)%Z; reflexivity.
Qed.

Lemma get_result (key : CacheKey) (now : Z) (c : ApiCache.t) :
  fst (ApiCache.get key now c)
  = match ApiCache.cache c !! key with
    | Some e => if expired now e then None else Some (data e)
    | None => None
    end.
Proof.
  unfold ApiCache.get, expired.
  destruct (ApiCache.cache c !! key) as [e |]; [| reflexivity].
  destruct (_ >? _)%Z; reflexivity.
Qed.

(** X2. Operations on one key leave every other key alone: after a [set],
    a [delete] or a [get] (which may evict) on [key], a [get] on another
    key returns what it would have returned before. *)
Theorem other_keys_untouched (key key' : CacheKey) (v : Payload)
    (ttl' : option Z) (t now : Z) (c : ApiCache.t) :
  key <> key' ->
  fst (ApiCache.get key' now (ApiCache.set key v ttl' t c))
  = fst (ApiCache.get key' now c)
  /\ fst (ApiCache.get key' now (snd (ApiCache.delete key c)))
     = fst (ApiCache.get key' now c)
  /\ fst (ApiCache.get key' now (snd (ApiCache.get key t c)))
     = fst (ApiCache.get key' now c)
  /\ fst (ApiCache.get key' now (snd (ApiCache.has key t c)))
     = fst (ApiCache.get key' now c).
Proof.
  intros Hne. rewrite !get_result. repeat split.
  - simpl. rewrite lookup_insert_ne by exact Hne. reflexivity.
  - simpl. rewrite lookup_delete_ne by exact Hne. reflexivity.
  - unfold ApiCache.get.
    destruct (ApiCache.cache c !! key) as [e |]; [| reflexivity].
    destruct (_ >? _)%Z; [| reflexivity].
    simpl. rewrite lookup_delete_ne by exact Hne. reflexivity.
  - unfold ApiCache.has.
    destruct (ApiCache.cache c !! key) as [e |]; [| reflexivity].
    destruct (_ >? _)%Z; [| reflexivity].
    simpl. rewrite lookup_delete_ne by exact Hne. reflexivity.
Qed.

Lemma other_keys_untouched_witness :
  fst (ApiCache.get "k" 1200
         (ApiCache.set "other" (PJson JNull) None 1100 sample_cache))
  = Some (PJson (JStr "v")).
Proof.
  destruct (other_keys_untouched "other" "k" (PJson JNull) None 1100 1200
              sample_cache) as [Hset _].
  - discriminate.
  - rewrite Hset. reflexivity.
Defined.

(** X3. [has] answers [true] exactly when the key holds an entry that has
    not expired. [get] then returns the data of that entry, which is
    [null] when [null] was stored, and it returns [null] whenever [has]
    answers [false]: a [true] of [has] tells that an entry is held, not
    that [get] returns something else than [null]. Both leave the cache in
    the same state, evicting an expired entry. *)
Theorem has_agrees_with_get (key : CacheKey) (now : Z) (c : ApiCache.t) :
  (fst (ApiCache.has key now c) = true
   <-> exists e, ApiCache.cache c !! key = Some e /\ expired now e = false)
  /\ (forall e,
        ApiCache.cache c !! key = Some e -> expired now e = false ->
        returned (fst (ApiCache.get key now c)) = data e)
  /\ (fst (ApiCache.has key now c) = false ->
      returned (fst (ApiCache.get key now c)) = PJson JNull)
  /\ snd (ApiCache.has key now c) = snd (ApiCache.get key now c).
Proof.
  rewrite get_result. unfold ApiCache.has, ApiCache.get, expired.
  destruct (ApiCache.cache c !! key) as [e |].
  - destruct (_ >? _)%Z eqn:Hexp; cbn [fst snd].
    + split; [split; [discriminate |] |].
      { intros (e' & He' & Hlive). inversion He'; subst e'.
        rewrite Hexp in Hlive. discriminate Hlive. }
      split; [| split; reflexivity].
      intros e' He' Hlive. inversion He'; subst e'.
      rewrite Hexp in Hlive. discriminate Hlive.
    + split; [split; [intros _; exists e; split; [reflexivity | exact Hexp]
                     | reflexivity] |].
      split; [| split; [discriminate | reflexivity]].
      intros e' He' _. inversion He'; subst e'. reflexivity.
  - cbn [fst snd]. split; [split; [discriminate |] |].
    { intros (e' & He' & _). discriminate He'. }
    split; [| split; reflexivity].
    intros e' He' _. discriminate He'.
Qed.

Lemma has_agrees_with_get_witness :
  fst (ApiCache.has "k" 1500 sample_cache) = true
  /\ returned (fst (ApiCache.get "k" 1500 sample_cache)) = PJson (JStr "v")
  /\ returned (fst (ApiCache.get "k" 1501 sample_cache)) = PJson JNull
  /\ fst (ApiCache.has "n" 1200
            (ApiCache.set "n" (PJson JNull) None 1100 sample_cache)) = true
  /\ returned (fst (ApiCache.get "n" 1200
                      (ApiCache.set "n" (PJson JNull) None 1100 sample_cache)))
     = PJson JNull.
Proof.
  destruct (has_agrees_with_get "k" 1500 sample_cache)
    as (Hheld & Hdata & _).
  destruct (has_agrees_with_get "k" 1501 sample_cache)
    as (_ & _ & Hgone & _).
  destruct (has_agrees_with_get "n" 1200
              (ApiCache.set "n" (PJson JNull) None 1100 sample_cache))
    as (Hnull_held & Hnull_data & _).
  split; [| split; [| split; [| split]]].
  - apply Hheld. exists sample_entry. split; reflexivity.
  - apply (Hdata sample_entry); reflexivity.
  - apply Hgone. reflexivity.
  - apply Hnull_held.
    exists {| data := PJson JNull; timestamp := 1100; ttl := 3600000 |}.
    split; reflexivity.
  - apply (Hnull_data
             {| data := PJson JNull; timestamp := 1100; ttl := 3600000 |});
      reflexivity.
Defined.

(** X4. [delete] reports whether the key held an entry, expired or not:
    on an entry that has expired but was not yet evicted it answers [true]
    where [has] answers [false]. After it the key is absent, and a second
    [delete] answers [false]. *)
Theorem delete_reports_entry (key : CacheKey) (now : Z) (c : ApiCache.t) :
  (fst (ApiCache.delete key c) = true <-> is_Some (ApiCache.cache c !! key))
  /\ (forall e, ApiCache.cache c !! key = Some e -> expired now e = true ->
        fst (ApiCache.delete key c) = true
        /\ fst (ApiCache.has key now c) = false)
  /\ fst (ApiCache.get key now (snd (ApiCache.delete key c))) = None
  /\ fst (ApiCache.delete key (snd (ApiCache.delete key c))) = false.
Proof.
  split; [| split; [| split]].
  - unfold ApiCache.delete. simpl. apply bool_decide_eq_true.
  - intros e Hin Hexp. unfold ApiCache.delete, ApiCache.has. simpl.
    rewrite Hin. unfold expired in Hexp. rewrite Hexp.
    split; [| reflexivity]. apply bool_decide_eq_true. eexists. reflexivity.
  - rewrite get_result. simpl. rewrite lookup_delete_eq. reflexivity.
  - unfold ApiCache.delete. simpl. apply bool_decide_eq_false.
    rewrite lookup_delete_eq. intros [x Hx]. discriminate Hx.
Qed.

Lemma delete_reports_entry_witness :
  fst (ApiCache.delete "k" sample_cache) = true
  /\ fst (ApiCache.has "k" 1501 sample_cache) = false.
Proof.
  destruct (delete_reports_entry "k" 1501 sample_cache) as (_ & Hexp & _).
  apply (Hexp sample_entry); reflexivity.
Defined.

Lemma expired_later (t t' : Z) (e : CacheEntry) :
  (t <= t')%Z -> expired t e = true -> expired t' e = true.
Proof.
  unfold expired. intros Hle Hexp.
  apply Z.gtb_lt in Hexp. apply Z.gtb_lt. lia.
Qed.

Lemma lookup_cleanup (now : Z) (c : ApiCache.t) (key : CacheKey) :
  ApiCache.cache (ApiCache.cleanup now c) !! key
  = match ApiCache.cache c !! key with
    | Some e => if expired now e then None else Some e
    | None => None
    end.
Proof.
  unfold ApiCache.cleanup. cbn [ApiCache.cache].
  destruct (ApiCache.cache c !! key) as [e |] eqn:Hin.
  - destruct (expired now e) eqn:Hexp.
    + apply map_lookup_filter_None. right. intros e' He' Hkeep.
      rewrite Hin in He'. inversion He'; subst e'.
      cbn [snd] in Hkeep. unfold expired in Hexp. rewrite Hexp in Hkeep.
      discriminate Hkeep.
    + apply map_lookup_filter_Some. split; [exact Hin |].
      cbn [snd]. unfold expired in Hexp. rewrite Hexp. reflexivity.
  - apply map_lookup_filter_None. left. exact Hin.
Qed.

Lemma lookup_foldl_delete (keys : list CacheKey) :
  forall (m : CacheStore) (key : CacheKey),
    foldl (fun m' k => base.delete k m') m keys !! key
    = if decide (key ∈ keys) then None else m !! key.
Proof.
  induction keys as [| k keys IH]; intros m key; cbn [foldl].
  - destruct (decide (key ∈ [])) as [Hin | _]; [inversion Hin | reflexivity].
  - rewrite IH.
    destruct (decide (key ∈ keys)) as [Hin | Hnotin].
    + destruct (decide (key ∈ k :: keys)) as [_ | Hno]; [reflexivity |].
      exfalso. apply Hno. right. exact Hin.
    + destruct (decide (key = k)) as [-> | Hne].
      * rewrite lookup_delete_eq.
        destruct (decide (k ∈ k :: keys)) as [_ | Hno]; [reflexivity |].
        exfalso. apply Hno. left.
      * rewrite lookup_delete_ne by congruence.
        destruct (decide (key ∈ k :: keys)) as [Hin | _]; [| reflexivity].
        apply elem_of_cons in Hin as [Heq | Hin]; contradiction.
Qed.

Lemma elem_of_keysToDelete (now : Z) (c : ApiCache.t) (key : CacheKey) :
  key ∈ keysToDelete now c
  <-> exists e, ApiCache.cache c !! key = Some e /\ expired now e = true.
Proof.
  unfold keysToDelete. rewrite list_elem_of_fmap. split.
  - intros ([k e] & -> & Hin).
    apply list_elem_of_In, filter_In in Hin as [Hin Hexp].
    apply list_elem_of_In, elem_of_map_to_list in Hin.
    exists e. split; assumption.
  - intros (e & Hin & Hexp). exists (key, e). split; [reflexivity |].
    apply list_elem_of_In, filter_In. split; [| exact Hexp].
    apply list_elem_of_In, elem_of_map_to_list. exact Hin.
Qed.

(** X5. The sweep removes exactly the expired entries: the two loops of
    [cleanup] (collect the expired keys, delete them) leave a store in
    which a key holds its former entry if that entry has not expired, and
    nothing otherwise; the default TTL is kept, and the store does not
    grow. *)
Theorem cleanup_removes_expired (now : Z) (c : ApiCache.t) :
  cleanup_loops now c = ApiCache.cleanup now c
  /\ (forall key,
        ApiCache.cache (ApiCache.cleanup now c) !! key
        = match ApiCache.cache c !! key with
          | Some e => if expired now e then None else Some e
          | None => None
          end)
  /\ ApiCache.defaultTtl (ApiCache.cleanup now c) = ApiCache.defaultTtl c
  /\ (ApiCache.size (ApiCache.cleanup now c) <= ApiCache.size c)%nat.
Proof.
  split; [| split; [| split]].
  - assert (Hstore : ApiCache.cache (cleanup_loops now c)
                     = ApiCache.cache (ApiCache.cleanup now c)).
    { apply map_eq. intros key. rewrite lookup_cleanup.
      unfold cleanup_loops. cbn [ApiCache.cache]. rewrite lookup_foldl_delete.
      destruct (decide (key ∈ keysToDelete now c)) as [Hin | Hnotin].
      - apply elem_of_keysToDelete in Hin as (e & -> & ->). reflexivity.
      - destruct (ApiCache.cache c !! key) as [e |] eqn:Hin; [| reflexivity].
        destruct (expired now e) eqn:Hexp; [| reflexivity].
        exfalso. apply Hnotin, elem_of_keysToDelete. exists e. auto. }
    unfold cleanup_loops in *. unfold ApiCache.cleanup in *.
    cbn [ApiCache.cache] in Hstore. rewrite Hstore. reflexivity.
  - apply lookup_cleanup.
  - reflexivity.
  - unfold ApiCache.size, ApiCache.cleanup. cbn [ApiCache.cache].
    apply map_size_filter.
Qed.

(** X6. The sweep cannot be seen by readers and can be repeated: a [get]
    at the time of a sweep or later returns what it would have returned
    without the sweep, and a sweep after an earlier one leaves what the
    later one alone would leave; in particular sweeping twice at the same
    time removes nothing more. *)
Theorem cleanup_unobservable (t t' : Z) (c : ApiCache.t) (key : CacheKey) :
  (t <= t')%Z ->
  fst (ApiCache.get key t' (ApiCache.cleanup t c))
  = fst (ApiCache.get key t' c)
  /\ ApiCache.cleanup t' (ApiCache.cleanup t c) = ApiCache.cleanup t' c
  /\ ApiCache.cleanup t (ApiCache.cleanup t c) = ApiCache.cleanup t c.
Proof.
  intros Hle.
  assert (Hsweep : forall u u', (u <= u')%Z ->
            ApiCache.cleanup u' (ApiCache.cleanup u c) = ApiCache.cleanup u' c).
  { intros u u' Hu.
    assert (Hstore : ApiCache.cache (ApiCache.cleanup u' (ApiCache.cleanup u c))
                     = ApiCache.cache (ApiCache.cleanup u' c)).
    { apply map_eq. intros k. rewrite !lookup_cleanup.
      destruct (ApiCache.cache c !! k) as [e |]; [| reflexivity].
      destruct (expired u e) eqn:Hexp; [| reflexivity].
      rewrite (expired_later u u' e Hu Hexp). reflexivity. }
    unfold ApiCache.cleanup in *. cbn [ApiCache.cache ApiCache.defaultTtl] in *.
    rewrite Hstore. reflexivity. }
  split; [| split].
  - rewrite !get_result, lookup_cleanup.
    destruct (ApiCache.cache c !! key) as [e |]; [| reflexivity].
    destruct (expired t e) eqn:Hexp; [| reflexivity].
    rewrite (expired_later t t' e Hle Hexp). reflexivity.
  - apply Hsweep, Hle.
  - apply Hsweep. lia.
Qed.

Lemma cleanup_unobservable_witness :
  fst (ApiCache.get "k" 1500 (ApiCache.cleanup 1200 sample_cache))
  = Some (PJson (JStr "v")).
Proof.
  destruct (cleanup_unobservable 1200 1500 sample_cache "k") as [Hget _].
  - lia.
  - rewrite Hget. reflexivity.
Defined.

(** * Further properties of the request executor *)

Lemma attempt_exact (url : string) (key : CacheKey) (ce : bool)
    (cttl : option Z) (w : World) :
  makeRequest_attempt url key ce cttl w
  = (attempt_outcome (remote w (served w)), attempt_world key ce cttl w,
     [EvFetch GET url None]).
Proof.
  unfold makeRequest_attempt, attempt_world, attempt_outcome, bind, fetch.
  destruct (result (remote w (served w))) as [msg | st [msg | detail status d]];
    simpl; [reflexivity | destruct (response_ok st); reflexivity |].
  destruct (response_ok st); simpl; [| reflexivity].
  destruct ce; reflexivity.
Qed.

Lemma get_hit_keeps_cache (key : CacheKey) (now : Z) (c : ApiCache.t)
    (v : Payload) :
  fst (ApiCache.get key now c) = Some v -> snd (ApiCache.get key now c) = c.
Proof.
  unfold ApiCache.get.
  destruct (ApiCache.cache c !! key) as [e |]; [| discriminate].
  destruct (_ >? _)%Z; [discriminate | reflexivity].
Qed.

Lemma get_keeps_defaultTtl (key : CacheKey) (now : Z) (c : ApiCache.t) :
  ApiCache.defaultTtl (snd (ApiCache.get key now c)) = ApiCache.defaultTtl c.
Proof.
  unfold ApiCache.get.
  destruct (ApiCache.cache c !! key) as [e |]; [| reflexivity].
  destruct (_ >? _)%Z; reflexivity.
Qed.

(** [makeRequest], by cases on what the cache holds. *)
Lemma makeRequest_unfold (endpoint : string) (params : option JsObject)
    (ce : bool) (cttl : option Z) (w : World) :
  makeRequest endpoint params ce cttl w
  = match cache_hit endpoint params ce w with
    | Some v => (Ok v, w, [])
    | None =>
        makeRequest_loop retryAttempts 0 None (request_url endpoint params)
          (ApiCache.generateKey endpoint params) ce cttl
          (if ce
           then with_cache
                  (snd (ApiCache.get (ApiCache.generateKey endpoint params)
                                     (clock w) (client_cache w))) w
           else w)
    end.
Proof.
  unfold makeRequest, cache_hit. cbv zeta. rewrite bind_run.
  destruct ce.
  - unfold cache_get.
    pose proof (get_hit_keeps_cache (ApiCache.generateKey endpoint params)
                  (clock w) (client_cache w)) as Hkeep.
    destruct (ApiCache.get (ApiCache.generateKey endpoint params) (clock w)
                (client_cache w)) as [[v |] c'];
      cbn [out_result out_world out_events fst snd] in *.
    + destruct (payload_truthy v).
      * rewrite (Hkeep v eq_refl). destruct w; reflexivity.
      * destruct (makeRequest_loop _ _ _ _ _ _ _ _) as [[r w2] ev2].
        reflexivity.
    + destruct (makeRequest_loop _ _ _ _ _ _ _ _) as [[r w2] ev2].
      reflexivity.
  - cbn [out_result out_world out_events fst snd ret].
    destruct (makeRequest_loop _ _ _ _ _ _ _ _) as [[r w2] ev2].
    reflexivity.
Qed.

(** X7. A call of [makeRequest] goes out to the service unless the cache
    answers it: it makes no outbound call exactly when caching is enabled
    and the cache holds, under the key of the request, an unexpired entry
    whose value is truthy; it then returns that value and changes nothing.
    A cached value that is falsy ([null], [false], [0], the empty string)
    is never served. *)
Theorem makeRequest_silent_iff_cached (endpoint : string)
    (params : option JsObject) (cacheEnabled : bool) (cacheTtl : option Z)
    (w : World) :
  let out := makeRequest endpoint params cacheEnabled cacheTtl w in
  (out_events out = [] <->
   exists v, cacheEnabled = true
             /\ fst (ApiCache.get (ApiCache.generateKey endpoint params)
                                  (clock w) (client_cache w)) = Some v
             /\ payload_truthy v = true)
  /\ (forall v, cache_hit endpoint params cacheEnabled w = Some v ->
        out = (Ok v, w, []))
  /\ (cache_hit endpoint params cacheEnabled w = None ->
        (1 <= fetch_count (out_events out))%nat).
Proof.
  cbv zeta.
  assert (Hhit : (exists v, cacheEnabled = true
                   /\ fst (ApiCache.get (ApiCache.generateKey endpoint params)
                                        (clock w) (client_cache w)) = Some v
                   /\ payload_truthy v = true)
                 <-> exists v, cache_hit endpoint params cacheEnabled w = Some v).
  { unfold cache_hit. split.
    - intros (v & -> & -> & ->). exists v. reflexivity.
    - intros (v & Hv). destruct cacheEnabled; [| discriminate Hv].
      destruct (fst _) as [v' |]; [| discriminate Hv].
      destruct (payload_truthy v') eqn:Htruthy; [| discriminate Hv].
      exists v'. auto. }
  destruct (makeRequest_run endpoint params cacheEnabled cacheTtl w)
    as [(v & Hv & _ & Hev & _) | (Hmiss & n & Hn & _ & _ & Hev & _)].
  - split; [| split].
    + rewrite Hhit. split; [intros _; exists v; exact Hv | intros _; exact Hev].
    + intros v' Hv'. rewrite makeRequest_unfold, Hv'. reflexivity.
    + intros Hnone. rewrite Hnone in Hv. discriminate Hv.
  - split; [| split].
    + rewrite Hhit, Hev. split.
      * destruct n as [| [| n]]; [lia | discriminate | discriminate].
      * intros (v & Hv). rewrite Hmiss in Hv. discriminate Hv.
    + intros v Hv. rewrite Hmiss in Hv. discriminate Hv.
    + intros _. rewrite Hev, fetch_count_attempts_trace. lia.
Qed.

Lemma makeRequest_silent_iff_cached_witness :
  (1 <= fetch_count
          (out_events (makeRequest "/api/v0/sites" None true None world_down)))%nat.
Proof.
  apply (makeRequest_silent_iff_cached "/api/v0/sites" None true None
           world_down).
  reflexivity.
Defined.

(** With caching enabled, a run of the loop that returns has just written
    its result to the cache, stamped with the time at which it ends. *)
Lemma loop_success_cached (url : string) (key : CacheKey) (cttl : option Z) :
  forall (remaining attempt : nat) (lastError : option JsError) (w : World)
         (d : Payload),
    let out := makeRequest_loop remaining attempt lastError url key true cttl w in
    out_result out = Ok d ->
    ApiCache.cache (client_cache (out_world out)) !! key
    = Some {| data := d; timestamp := clock (out_world out);
              ttl := num_or cttl (ApiCache.defaultTtl (client_cache w)) |}
    /\ ApiCache.defaultTtl (client_cache (out_world out))
       = ApiCache.defaultTtl (client_cache w).
Proof.
  induction remaining as [| remaining IH]; intros attempt lastError w d;
    cbn [makeRequest_loop]; cbv zeta.
  - intros Hres. discriminate Hres.
  - rewrite try_catch_run, attempt_exact.
    cbn [out_result out_world out_events fst snd].
    destruct (attempt_outcome (remote w (served w))) as [d' | e] eqn:Hout.
    + cbn [out_result out_world fst snd]. intros Hres. inversion Hres; subst d'.
      unfold attempt_world. rewrite Hout. cbn [client_cache clock].
      split; [apply set_lookup | reflexivity].
    + assert (Hcache : client_cache (attempt_world key true cttl w)
                       = client_cache w)
        by (unfold attempt_world; rewrite Hout; reflexivity).
      destruct (includes (message e) "Status: 4").
      * intros Hres. discriminate Hres.
      * rewrite bind_run.
        destruct (attempt <? retryAttempts - 1)%nat;
          cbn [out_result out_world out_events fst snd sleep ret];
          intros Hres;
          match goal with
          | |- context [makeRequest_loop remaining (S attempt) (Some e) url
                          key true cttl ?w2] =>
              destruct (IH (S attempt) (Some e) w2 d Hres) as [Hentry Hdef];
              assert (Hsame : ApiCache.defaultTtl (client_cache w2)
                              = ApiCache.defaultTtl (client_cache w))
                by (cbn [client_cache]; rewrite Hcache; reflexivity);
              rewrite Hsame in Hentry, Hdef; split; assumption
          end.
Qed.

(** X8. What one call has fetched answers the next ones for the length
    of its TTL: after a call of [makeRequest] with caching enabled has gone
    out and returned a truthy value, a call whose request has the same
    cache key, made [dt] ms later, returns that value without an outbound
    call and leaves the world as it is when [dt] is at most the TTL in
    force (the one given, else the default of the cache); when [dt] is
    more, it goes out to the service again. *)
Theorem fetched_result_served_for_ttl (endpoint : string)
    (params : option JsObject) (cacheTtl : option Z)
    (endpoint2 : string) (params2 : option JsObject) (cacheTtl2 : option Z)
    (w : World) (d : Payload) (dt : Z) :
  let out := makeRequest endpoint params true cacheTtl w in
  let later := pass_time dt (out_world out) in
  cache_hit endpoint params true w = None ->
  out_result out = Ok d ->
  payload_truthy d = true ->
  ApiCache.generateKey endpoint2 params2 = ApiCache.generateKey endpoint params ->
  ((dt <= num_or cacheTtl (ApiCache.defaultTtl (client_cache w)))%Z ->
     makeRequest endpoint2 params2 true cacheTtl2 later = (Ok d, later, []))
  /\ ((num_or cacheTtl (ApiCache.defaultTtl (client_cache w)) < dt)%Z ->
        (1 <= fetch_count
                (out_events (makeRequest endpoint2 params2 true cacheTtl2
                               later)))%nat).
Proof.
  cbv zeta. intros Hmiss Hres Htruthy Hkey.
  rewrite makeRequest_unfold, Hmiss in Hres.
  rewrite (makeRequest_unfold endpoint), Hmiss.
  apply loop_success_cached in Hres. destruct Hres as [Hentry _].
  cbn [client_cache with_cache] in Hentry.
  rewrite get_keeps_defaultTtl in Hentry.
  set (w' := out_world (makeRequest_loop _ _ _ _ _ _ _ _)) in *.
  assert (Hget : fst (ApiCache.get (ApiCache.generateKey endpoint2 params2)
                        (clock (pass_time dt w'))
                        (client_cache (pass_time dt w')))
                 = if (dt >? num_or cacheTtl
                               (ApiCache.defaultTtl (client_cache w)))%Z
                   then None else Some d).
  { rewrite Hkey, get_result. cbn [pass_time client_cache clock].
    rewrite Hentry. unfold expired. cbn [timestamp ttl data].
    replace (clock w' + dt - clock w')%Z with dt by lia. reflexivity. }
  split; intros Hdt.
  - rewrite (makeRequest_unfold endpoint2). unfold cache_hit. rewrite Hget.
    destruct (Z.gtb_spec dt (num_or cacheTtl
                               (ApiCache.defaultTtl (client_cache w))));
      [lia |].
    rewrite Htruthy. reflexivity.
  - destruct (makeRequest_run endpoint2 params2 true cacheTtl2
                (pass_time dt w'))
      as [(v & Hv & _) | (_ & n & Hn & _ & _ & -> & _)].
    + unfold cache_hit in Hv. rewrite Hget in Hv.
      destruct (Z.gtb_spec dt (num_or cacheTtl
                                 (ApiCache.defaultTtl (client_cache w))));
        [discriminate Hv | lia].
    + rewrite fetch_count_attempts_trace. lia.
Qed.

Lemma fetched_result_served_for_ttl_witness :
  out_events
    (getSites None
       (pass_time 3600000 (out_world (getSites None world_sites)))) = []
  /\ (1 <= fetch_count
             (out_events
                (getSites None
                   (pass_time 3600001
                      (out_world (getSites None world_sites))))))%nat.
Proof.
  change (getSites None) with (makeRequest "/api/v0/sites" None true None).
  split.
  - destruct (fetched_result_served_for_ttl "/api/v0/sites" None None
                "/api/v0/sites" None None world_sites
                (PJson (JArr [JObj [("siteCode", JStr "HARV")]])) 3600000)
      as [Hserved _]; [reflexivity | reflexivity | reflexivity | reflexivity |].
    rewrite Hserved; [reflexivity |]. vm_compute. discriminate.
  - destruct (fetched_result_served_for_ttl "/api/v0/sites" None None
                "/api/v0/sites" None None world_sites
                (PJson (JArr [JObj [("siteCode", JStr "HARV")]])) 3600001)
      as [_ Hagain]; [reflexivity | reflexivity | reflexivity | reflexivity |].
    apply Hagain. vm_compute. reflexivity.
Defined.

(** With caching disabled the loop leaves the cache as it is. *)
Lemma loop_uncached_keeps_cache (url : string) (key : CacheKey)
    (cttl : option Z) :
  forall (remaining attempt : nat) (lastError : option JsError) (w : World),
    client_cache
      (out_world
         (makeRequest_loop remaining attempt lastError url key false cttl w))
    = client_cache w.
Proof.
  induction remaining as [| remaining IH]; intros attempt lastError w;
    cbn [makeRequest_loop]; [reflexivity |].
  rewrite try_catch_run, attempt_exact.
  cbn [out_result out_world out_events fst snd].
  assert (Hcache : client_cache (attempt_world key false cttl w)
                   = client_cache w).
  { unfold attempt_world. cbn [client_cache].
    destruct (attempt_outcome _); reflexivity. }
  destruct (attempt_outcome (remote w (served w))) as [d | e];
    [exact Hcache |].
  destruct (includes (message e) "Status: 4"); [exact Hcache |].
  rewrite bind_run.
  destruct (attempt <? retryAttempts - 1)%nat;
    cbn [out_result out_world out_events fst snd sleep ret];
    rewrite IH; exact Hcache.
Qed.

(** X9. Sample lookups bypass the cache in both directions: [trackSample]
    always goes out to the service, with one to three attempts, whatever
    the cache holds, and whatever the service answers it leaves the cache
    exactly as it found it. *)
Theorem trackSample_bypasses_cache (params : JsObject) (w : World) :
  let out := trackSample params w in
  client_cache (out_world out) = client_cache w
  /\ (1 <= fetch_count (out_events out) <= 3)%nat.
Proof.
  cbv zeta. unfold trackSample. split.
  - rewrite makeRequest_unfold. cbn [cache_hit].
    apply loop_uncached_keeps_cache.
  - destruct (makeRequest_run "/api/v0/samples/view" (Some params) false None w)
      as [(v & Hv & _) | (_ & n & Hn & _ & _ & -> & _)].
    + discriminate Hv.
    + rewrite fetch_count_attempts_trace. unfold retryAttempts in Hn. lia.
Qed.

Lemma includes_app_r (x y t : string) :
  includes y t = true -> includes (x +:+ y) t = true.
Proof.
  intros Hy. induction x as [| c x IH]; [exact Hy |].
  change (String c x +:+ y) with (String c (x +:+ y)).
  cbn [includes]. rewrite IH. apply orb_true_r.
Qed.

Lemma prefix_app_r (t : string) :
  forall p q, String.prefix t p = true -> String.prefix t (p +:+ q) = true.
Proof.
  induction t as [| a t IH]; intros p q Hp.
  - destruct p; [destruct q |]; reflexivity.
  - destruct p as [| b p]; [discriminate Hp |].
    change (String b p +:+ q) with (String b (p +:+ q)).
    cbn [String.prefix] in Hp |- *.
    destruct (Ascii.ascii_dec a b); [apply IH, Hp | discriminate Hp].
Qed.

Lemma pretty_4xx (s : Z) :
  (400 <= s <= 499)%Z -> String.prefix "4" (pretty s) = true.
Proof.
  intros Hs.
  assert (Hall : forallb (fun i => String.prefix "4" (pretty (400 + Z.of_nat i)%Z))
                         (seq 0 100) = true) by (vm_compute; reflexivity).
  rewrite forallb_forall in Hall.
  specialize (Hall (Z.to_nat (s - 400))).
  replace (400 + Z.of_nat (Z.to_nat (s - 400)))%Z with s in Hall by lia.
  apply Hall, in_seq. lia.
Qed.

Lemma api_error_4xx_is_client_error (detail : JsVal) (s : Z) :
  (400 <= s <= 499)%Z -> client_error (api_error detail (JNum s)) = true.
Proof.
  intros Hs. unfold client_error, api_error. cbn [message js_toString].
  apply includes_app_r, includes_app_r.
  change (" (Status: " +:+ pretty s +:+ ")")
    with (String.append " (" ("Status: " +:+ pretty s +:+ ")")).
  apply includes_app_r. cbn [includes]. apply orb_true_iff. left.
  change ("Status: " +:+ pretty s +:+ ")")
    with (String.append "Status: " (pretty s +:+ ")")).
  assert (Hp : String.prefix "4" (pretty s +:+ ")") = true)
    by (apply prefix_app_r, pretty_4xx, Hs).
  destruct (pretty s +:+ ")") as [| c rest]; [discriminate Hp |].
  cbn in Hp |- *. exact Hp.
Qed.

(** X10. A failure that the service itself reports as a client error is
    not retried: when nothing is taken from the cache and the first reply
    is a non-ok response whose JSON body carries a numeric [status] from
    400 to 499, [makeRequest] makes that one outbound call, waits for
    nothing, and throws the error built from the body's [detail] and
    [status]. *)
Theorem reported_client_error_not_retried (endpoint : string)
    (params : option JsObject) (cacheEnabled : bool) (cacheTtl : option Z)
    (w : World) (st s : Z) (detail : JsVal) (d : Payload) :
  let out := makeRequest endpoint params cacheEnabled cacheTtl w in
  cache_hit endpoint params cacheEnabled w = None ->
  result (remote w (served w)) = Response st (BodyJson detail (JNum s) d) ->
  response_ok st = false ->
  (400 <= s <= 499)%Z ->
  out_events out = [EvFetch GET (request_url endpoint params) None]
  /\ out_result out = Throw (api_error detail (JNum s)).
Proof.
  cbv zeta. intros Hmiss Hreply Hok Hs.
  assert (Hfirst : attempt_outcome (remote w (served w))
                   = Throw (api_error detail (JNum s))).
  { unfold attempt_outcome. rewrite Hreply, Hok. reflexivity. }
  destruct (makeRequest_run endpoint params cacheEnabled cacheTtl w)
    as [(v & Hv & _) | (_ & n & Hn & _ & _ & Hev & Hprev & Hres)].
  { rewrite Hmiss in Hv. discriminate Hv. }
  assert (Hone : n = 1%nat).
  { destruct n as [| [| n]]; [lia | reflexivity |].
    destruct (Hprev 0%nat ltac:(lia)) as (e & He & Hce).
    rewrite Nat.add_0_r, Hfirst in He. inversion He; subst e.
    rewrite (api_error_4xx_is_client_error detail s Hs) in Hce.
    discriminate Hce. }
  subst n. split; [exact Hev |].
  replace (served w + 1 - 1)%nat with (served w) in Hres by lia.
  rewrite Hfirst in Hres.
  destruct (out_result _) as [d' | e]; [discriminate Hres |].
  destruct Hres as [Hres _]. inversion Hres. reflexivity.
Qed.

Lemma reported_client_error_not_retried_witness :
  out_events
    (getSite "NOPE" (new_client (fun _ => reply_404) 0))
  = [EvFetch GET "https://data.neonscience.org/api/v0/sites/NOPE" None].
Proof.
  apply (reported_client_error_not_retried "/api/v0/sites/NOPE" None true None
           (new_client (fun _ => reply_404) 0) 404 404 (JStr "Not Found")
           (PJson JUndefined)).
  - reflexivity.
  - reflexivity.
  - reflexivity.
  - lia.
Defined.

(** * Further properties of the query planner *)

(** The multi-site branch of [queryData], by cases on what the cache
    holds: its one POST is handled like one attempt of [makeRequest] that
    stores with the default TTL. *)
Lemma queryData_POST_unfold (params : JsObject) (w : World) :
  multiple_sites params = true ->
  queryData params w
  = match cache_hit query_endpoint (Some params) true w with
    | Some v => (Ok v, w, [])
    | None =>
        (attempt_outcome (remote w (served w)),
         attempt_world (ApiCache.generateKey query_endpoint (Some params))
           true None
           (with_cache
              (snd (ApiCache.get
                      (ApiCache.generateKey query_endpoint (Some params))
                      (clock w) (client_cache w))) w),
         [EvFetch POST (baseUrl +:+ query_endpoint) (Some params)])
    end.
Proof.
  intros Hmulti. unfold queryData. rewrite Hmulti.
  unfold cache_hit, query_endpoint. rewrite bind_run. unfold cache_get.
  pose proof (get_hit_keeps_cache
                (ApiCache.generateKey "/api/v0/data/query" (Some params))
                (clock w) (client_cache w)) as Hkeep.
  destruct (ApiCache.get _ (clock w) (client_cache w)) as [cached c'].
  cbn [out_result out_world out_events fst snd] in *.
  assert (Hpost : forall w0 : World,
    (response <- fetch POST (baseUrl +:+ "/api/v0/data/query") (Some params) ;;
     if negb (response_ok (fst response)) then
       errorData <- response_json (snd response) ;;
       throw (api_error (fst (fst errorData)) (snd (fst errorData)))
     else
       data <- response_json (snd response) ;;
       cache_set (ApiCache.generateKey "/api/v0/data/query" (Some params))
                 (snd data) None ;;;
       ret (snd data)) w0
    = (attempt_outcome (remote w0 (served w0)),
       attempt_world (ApiCache.generateKey "/api/v0/data/query" (Some params))
                     true None w0,
       [EvFetch POST (baseUrl +:+ "/api/v0/data/query") (Some params)])).
  { intros w0. unfold attempt_world, attempt_outcome, bind, fetch.
    destruct (result (remote w0 (served w0)))
      as [msg | st [msg | detail status d]];
      simpl; [reflexivity | destruct (response_ok st); reflexivity |].
    destruct (response_ok st); reflexivity. }
  destruct cached as [v |].
  - destruct (payload_truthy v).
    + rewrite (Hkeep v eq_refl). destruct w; reflexivity.
    + rewrite Hpost. reflexivity.
  - rewrite Hpost. reflexivity.
Qed.

(** X11. A multi-site query is sent at most once: unlike the single-site
    path, the POST branch of [queryData] has no retry and no wait. When
    the cache does not answer, the result is what the one reply gives, so
    a network failure or a 5xx answer is thrown at once. *)
Theorem queryData_POST_not_retried (params : JsObject) (w : World) :
  multiple_sites params = true ->
  let out := queryData params w in
  (fetch_count (out_events out) <= 1)%nat
  /\ delays (out_events out) = []
  /\ (cache_hit query_endpoint (Some params) true w = None ->
      out_result out = attempt_outcome (remote w (served w))
      /\ out_events out
         = [EvFetch POST (baseUrl +:+ query_endpoint) (Some params)]).
Proof.
  intros Hmulti. cbv zeta. rewrite (queryData_POST_unfold params w Hmulti).
  destruct (cache_hit query_endpoint (Some params) true w) as [v |].
  - cbn. split; [lia |]. split; [reflexivity |]. intros H. discriminate H.
  - cbn [out_result out_events fst snd]. unfold fetch_count. cbn.
    split; [lia |]. split; [reflexivity |]. intros _. split; reflexivity.
Qed.

Lemma queryData_POST_not_retried_witness :
  out_events (queryData two_site_params world_down)
  = [EvFetch POST "https://data.neonscience.org/api/v0/data/query"
             (Some two_site_params)]
  /\ out_result (queryData two_site_params world_down)
     = Throw (api_error (JStr "Service Unavailable") (JNum 503)).
Proof.
  destruct (queryData_POST_not_retried two_site_params world_down)
    as (_ & _ & Hmiss).
  - reflexivity.
  - destruct Hmiss as [Hres Hev]; [reflexivity |].
    split; [exact Hev | rewrite Hres; reflexivity].
Defined.

(** X12. A multi-site result answers the same query for the length of
    the default TTL: after the POST branch of [queryData] has gone out and
    returned a truthy result, the same query made [dt] ms later returns
    that result without an outbound call when [dt] is at most the default
    TTL of the cache, and is sent again when [dt] is more. *)
Theorem queryData_POST_served_for_ttl (params : JsObject) (w : World)
    (d : Payload) (dt : Z) :
  let later := pass_time dt (out_world (queryData params w)) in
  multiple_sites params = true ->
  cache_hit query_endpoint (Some params) true w = None ->
  out_result (queryData params w) = Ok d ->
  payload_truthy d = true ->
  ((dt <= ApiCache.defaultTtl (client_cache w))%Z ->
     queryData params later = (Ok d, later, []))
  /\ ((ApiCache.defaultTtl (client_cache w) < dt)%Z ->
        out_events (queryData params later)
        = [EvFetch POST (baseUrl +:+ query_endpoint) (Some params)]).
Proof.
  cbv zeta. intros Hmulti Hmiss Hres Htruthy.
  rewrite (queryData_POST_unfold params w Hmulti), Hmiss in Hres |- *.
  cbn [out_result out_world fst snd] in Hres |- *.
  set (w' := attempt_world _ true None _) in *.
  assert (Hhit : cache_hit query_endpoint (Some params) true (pass_time dt w')
                 = if (dt >? ApiCache.defaultTtl (client_cache w))%Z
                   then None else Some d).
  { unfold cache_hit. rewrite get_result. subst w'.
    unfold attempt_world.
    cbn [pass_time client_cache clock remote served with_cache].
    rewrite Hres, set_lookup. unfold expired. cbn [timestamp ttl data].
    rewrite get_keeps_defaultTtl. cbn [num_or].
    match goal with
    | |- context [(?a + dt - ?a >? _)%Z] =>
        replace (a + dt - a)%Z with dt by lia
    end.
    destruct (dt >? _)%Z; [reflexivity |]. rewrite Htruthy. reflexivity. }
  split; intros Hdt;
    rewrite (queryData_POST_unfold params (pass_time dt w') Hmulti), Hhit;
    destruct (Z.gtb_spec dt (ApiCache.defaultTtl (client_cache w)));
    try lia; reflexivity.
Qed.

Lemma queryData_POST_served_for_ttl_witness :
  out_events
    (queryData two_site_params
       (pass_time 3600000
          (out_world (queryData two_site_params world_query)))) = []
  /\ out_events
       (queryData two_site_params
          (pass_time 3600001
             (out_world (queryData two_site_params world_query))))
     = [EvFetch POST "https://data.neonscience.org/api/v0/data/query"
                (Some two_site_params)].
Proof.
  split.
  - destruct (queryData_POST_served_for_ttl two_site_params world_query
                (PJson (JObj [("siteCodes", JArr [])])) 3600000)
      as [Hserved _]; [reflexivity | reflexivity | reflexivity | reflexivity |].
    rewrite Hserved; [reflexivity |]. vm_compute. discriminate.
  - destruct (queryData_POST_served_for_ttl two_site_params world_query
                (PJson (JObj [("siteCodes", JArr [])])) 3600001)
      as [_ Hagain]; [reflexivity | reflexivity | reflexivity | reflexivity |].
    apply Hagain. vm_compute. reflexivity.
Defined.

Lemma get_prop_set_prop (o : JsObject) (k k' : string) (v : JsVal) :
  get_prop (set_prop o k v) k'
  = if decide (k = k') then v else get_prop o k'.
Proof.
  induction o as [| [k0 v0] o IH]; simpl.
  - destruct (decide (k = k')); reflexivity.
  - destruct (decide (k0 = k)) as [-> | Hne]; simpl.
    + destruct (decide (k = k')); reflexivity.
    + destruct (decide (k0 = k')) as [-> | Hne'].
      * destruct (decide (k = k')); [congruence | reflexivity].
      * exact IH.
Qed.

Lemma get_prop_delete_prop (o : JsObject) (k k' : string) :
  get_prop (delete_prop o k) k'
  = if decide (k = k') then JUndefined else get_prop o k'.
Proof.
  unfold delete_prop.
  induction o as [| [k0 v0] o IH]; simpl.
  - destruct (decide (k = k')); reflexivity.
  - destruct (String.eqb_spec k0 k) as [-> | Hne]; simpl.
    + rewrite IH. destruct (decide (k = k')); reflexivity.
    + destruct (decide (k0 = k')) as [-> | Hne']; [| exact IH].
      destruct (decide (k = k')); [congruence | reflexivity].
Qed.

Lemma keys_set_prop (o : JsObject) (k : string) (v : JsVal) :
  forall k', k' ∈ (set_prop o k v).*1 <-> k' = k \/ k' ∈ o.*1.
Proof.
  induction o as [| [k0 v0] o IH]; intros k'; simpl.
  - rewrite list_elem_of_singleton. split; [auto |].
    intros [-> | Hin]; [reflexivity | inversion Hin].
  - destruct (decide (k0 = k)) as [-> | Hne]; simpl.
    + rewrite !elem_of_cons. tauto.
    + rewrite !elem_of_cons, IH. tauto.
Qed.

Lemma wf_set_prop (o : JsObject) (k : string) (v : JsVal) :
  wf_object o -> wf_object (set_prop o k v).
Proof.
  unfold wf_object. induction o as [| [k0 v0] o IH]; simpl; intros Hwf.
  - apply NoDup_singleton.
  - apply NoDup_cons in Hwf as [Hnotin Hwf].
    destruct (decide (k0 = k)) as [-> | Hne]; simpl.
    + apply NoDup_cons. split; assumption.
    + apply NoDup_cons. split; [| apply IH, Hwf].
      rewrite keys_set_prop. intros [-> | Hin]; [congruence | contradiction].
Qed.

Lemma wf_delete_prop (o : JsObject) (k : string) :
  wf_object o -> wf_object (delete_prop o k).
Proof.
  unfold wf_object, delete_prop.
  induction o as [| [k0 v0] o IH]; simpl; intros Hwf; [exact Hwf |].
  apply NoDup_cons in Hwf as [Hnotin Hwf].
  destruct (negb (String.eqb k0 k)); simpl; [| apply IH, Hwf].
  apply NoDup_cons. split; [| apply IH, Hwf].
  intros Hin. apply Hnotin.
  apply list_elem_of_fmap in Hin as ([k1 v1] & Hk & Hin). simpl in Hk. subst k1.
  apply list_elem_of_In, filter_In in Hin as [Hin _].
  apply list_elem_of_fmap. exists (k0, v1).
  split; [reflexivity | apply list_elem_of_In, Hin].
Qed.

(** X13. The single-site rewrite of [queryData]: when [siteCodes] is
    truthy (any array, the empty one included), the parameters sent have
    [siteCode] set to the first element of [siteCodes], in place of any
    [siteCode] given, and have no [siteCodes]; every other parameter is
    passed on as it was, and the keys stay distinct. With an empty
    [siteCodes] the request therefore goes out without any site. When
    [siteCodes] is absent the parameters are sent unchanged. *)
Theorem single_site_rewrite (params : JsObject) :
  (truthy (get_prop params "siteCodes") = true ->
     get_prop (single_site_params params) "siteCode"
     = js_first (get_prop params "siteCodes")
     /\ get_prop (single_site_params params) "siteCodes" = JUndefined
     /\ (forall k, k <> "siteCode" -> k <> "siteCodes" ->
           get_prop (single_site_params params) k = get_prop params k)
     /\ (wf_object params -> wf_object (single_site_params params)))
  /\ (get_prop params "siteCodes" = JArr [] ->
      get_prop (single_site_params params) "siteCode" = JUndefined)
  /\ (truthy (get_prop params "siteCodes") = false ->
      single_site_params params = params).
Proof.
  unfold single_site_params. split; [| split].
  - intros ->. split; [| split; [| split]].
    + rewrite get_prop_delete_prop, get_prop_set_prop.
      destruct (decide ("siteCodes" = "siteCode")) as [Heq | _];
        [discriminate Heq |].
      destruct (decide ("siteCode" = "siteCode")); [reflexivity | congruence].
    + rewrite get_prop_delete_prop.
      destruct (decide ("siteCodes" = "siteCodes")); [reflexivity | congruence].
    + intros k Hk1 Hk2. rewrite get_prop_delete_prop, get_prop_set_prop.
      destruct (decide ("siteCodes" = k)); [congruence |].
      destruct (decide ("siteCode" = k)); [congruence | reflexivity].
    + intros Hwf. apply wf_delete_prop, wf_set_prop, Hwf.
  - intros Hempty. rewrite Hempty. cbn [truthy].
    rewrite get_prop_delete_prop, get_prop_set_prop.
    destruct (decide ("siteCodes" = "siteCode")) as [Heq | _];
      [discriminate Heq |].
    destruct (decide ("siteCode" = "siteCode")); [reflexivity | congruence].
  - intros ->. reflexivity.
Qed.

Lemma single_site_rewrite_witness :
  get_prop (single_site_params both_sites_params) "siteCode" = JUndefined
  /\ request_url query_endpoint (Some (single_site_params both_sites_params))
     = "https://data.neonscience.org/api/v0/data/query?productCode=DP1.10003.001".
Proof.
  split.
  - apply (single_site_rewrite both_sites_params). reflexivity.
  - reflexivity.
Defined.

(** * Further properties of the location resolver *)

Lemma keeps_anything {A} (m : M A) :
  keeps (fun _ => True) m (fun _ => True).
Proof. intros w _. split; [exact I | intros a _; exact I]. Qed.

Lemma lookup_tower_sound (name site : string) :
  keeps (fun _ => True) (lookup_tower name site)
        (fun found => forall tower, found = Some tower -> siteCode tower = site).
Proof.
  unfold lookup_tower. apply keeps_try_catch.
  - eapply keeps_bind; [apply keeps_anything |].
    intros tower _.
    destruct (String.eqb_spec (siteCode tower) site) as [Heq | _].
    + apply keeps_ret. intros t Ht. inversion Ht; subst t. exact Heq.
    + apply keeps_ret. intros t Ht. discriminate Ht.
  - intros e. apply keeps_ret. intros t Ht. discriminate Ht.
Qed.

Lemma guess_towers_sound (site : string) :
  forall names towers,
    Forall (fun t => siteCode t = site) towers ->
    keeps (fun _ => True) (guess_towers site names towers)
          (Forall (fun t => siteCode t = site)).
Proof.
  induction names as [| name names IH]; intros towers Htowers;
    cbn [guess_towers].
  - apply keeps_ret, Htowers.
  - eapply keeps_bind; [apply lookup_tower_sound |].
    intros [tower |] Hfound; apply IH; [| exact Htowers].
    apply Forall_app. split; [exact Htowers |].
    constructor; [apply Hfound; reflexivity | constructor].
Qed.

Lemma filter_tower_sound (site : string) (locs : list Location) :
  Forall (fun t => siteCode t = site) (List.filter (is_tower_at site) locs).
Proof.
  apply Forall_forall. intros t Ht.
  apply list_elem_of_In, filter_In in Ht as [_ Ht].
  unfold is_tower_at in Ht. apply andb_true_iff in Ht as [Ht _].
  apply String.eqb_eq, Ht.
Qed.

Lemma findTowersAtSite_sound (site : string) :
  keeps (fun _ => True) (findTowersAtSite site)
        (Forall (fun t => siteCode t = site)).
Proof.
  unfold findTowersAtSite. apply keeps_try_catch.
  - eapply keeps_bind.
    + unfold srer_shortcut. destruct (String.eqb site "SRER").
      * apply lookup_tower_sound.
      * apply keeps_ret. intros t Ht. discriminate Ht.
    + intros [tower |] Hfound.
      * apply keeps_ret. constructor; [apply Hfound; reflexivity | constructor].
      * unfold catalog_search.
        eapply keeps_bind; [apply keeps_anything |].
        intros locs _. destruct (_ =? _)%nat.
        -- apply guess_towers_sound, filter_tower_sound.
        -- apply keeps_ret, filter_tower_sound.
  - intros e. eapply keeps_bind; [apply keeps_anything |].
    intros _ _. apply keeps_ret. constructor.
Qed.

(** X14. [findTowersAtSite] never returns a structure of another site:
    whatever the catalog and the by-name lookups answer, every location in
    its result has the site code that was asked for. *)
Theorem findTowersAtSite_only_requested_site (site : string) (w : World)
    (towers : list Location) :
  out_result (findTowersAtSite site w) = Ok towers ->
  Forall (fun t => siteCode t = site) towers.
Proof.
  intros Hres. destruct (findTowersAtSite_sound site w I) as [_ Hpost].
  apply Hpost, Hres.
Qed.

Lemma findTowersAtSite_only_requested_site_witness :
  Forall (fun t => siteCode t = "HARV") [harv_tower].
Proof.
  apply (findTowersAtSite_only_requested_site "HARV" world_harv).
  vm_compute. reflexivity.
Defined.

(** X15. The SRER shortcut: for the site SRER the known tower is looked
    up by name first. When the lookup returns a location of SRER, that
    location alone is the result and nothing else is asked of the service,
    the catalog in particular; when it returns a location of another site,
    the resolver goes on with the catalog search as if the lookup had not
    been made. *)
Theorem srer_shortcut_exact (w : World) (tower : Location) :
  out_result (getLocation "TOWER104454" None None None w) = Ok tower ->
  (siteCode tower = "SRER" ->
     findTowersAtSite "SRER" w
     = (Ok [tower], out_world (getLocation "TOWER104454" None None None w),
        out_events (getLocation "TOWER104454" None None None w)))
  /\ (siteCode tower <> "SRER" ->
        out_result (findTowersAtSite "SRER" w)
        = match out_result
                  (catalog_search "SRER"
                     (out_world (getLocation "TOWER104454" None None None w)))
          with
          | Ok towers => Ok towers
          | Throw _ => Ok []
          end).
Proof.
  intros Hlookup.
  assert (Hshort : forall found,
            found = (if String.eqb (siteCode tower) "SRER"
                     then Some tower else None) ->
            srer_shortcut "SRER" w
            = (Ok found, out_world (getLocation "TOWER104454" None None None w),
               out_events (getLocation "TOWER104454" None None None w))).
  { intros found ->. unfold srer_shortcut.
    change (String.eqb "SRER" "SRER") with true. cbv iota.
    unfold lookup_tower. rewrite try_catch_run, bind_run, Hlookup.
    cbn [out_result out_world out_events fst snd].
    destruct (String.eqb (siteCode tower) "SRER");
      cbn [out_result out_world out_events fst snd ret];
      rewrite app_nil_r; reflexivity. }
  split; intros Hsite.
  - unfold findTowersAtSite. rewrite try_catch_run, bind_run.
    rewrite (Hshort (Some tower)).
    + cbn [out_result out_world out_events fst snd ret].
      rewrite app_nil_r. reflexivity.
    + apply String.eqb_eq in Hsite. rewrite Hsite. reflexivity.
  - unfold findTowersAtSite. rewrite try_catch_run, bind_run.
    rewrite (Hshort None).
    + cbn [out_result out_world out_events fst snd].
      destruct (out_result (catalog_search "SRER" _)); reflexivity.
    + apply String.eqb_neq in Hsite. rewrite Hsite. reflexivity.
Qed.

Lemma srer_shortcut_exact_witness :
  findTowersAtSite "SRER" world_srer
  = (Ok [srer_tower],
     out_world (getLocation "TOWER104454" None None None world_srer),
     [EvFetch GET "https://data.neonscience.org/api/v0/locations/TOWER104454"
              None]).
Proof.
  destruct (srer_shortcut_exact world_srer srer_tower) as [Hmatch _].
  - vm_compute. reflexivity.
  - rewrite Hmatch; reflexivity.
Defined.

(** X16. When the catalog has towers for the site, no name is guessed:
    for a site other than SRER, if the catalog fetch succeeds and its
    filter keeps at least one location, [findTowersAtSite] returns the
    kept locations in catalog order and its only outbound calls are those
    of the catalog fetch. *)
Theorem catalog_hit_skips_guesses (site : string) (w : World)
    (locs : list Location) :
  site <> "SRER" ->
  out_result (getSiteLocations w) = Ok locs ->
  List.filter (is_tower_at site) locs <> [] ->
  findTowersAtSite site w
  = (Ok (List.filter (is_tower_at site) locs),
     out_world (getSiteLocations w), out_events (getSiteLocations w)).
Proof.
  intros Hsite Hcatalog Hkept.
  unfold findTowersAtSite. rewrite try_catch_run, bind_run.
  unfold srer_shortcut.
  destruct (String.eqb_spec site "SRER") as [Heq | _]; [contradiction |].
  cbn [out_result out_world out_events fst snd ret].
  unfold catalog_search. rewrite bind_run, Hcatalog.
  destruct (List.filter (is_tower_at site) locs) as [| t ts] eqn:Hfilter;
    [contradiction |].
  cbn [List.length Nat.eqb out_result out_world out_events fst snd ret].
  rewrite app_nil_r. reflexivity.
Qed.

Lemma catalog_hit_skips_guesses_witness :
  findTowersAtSite "HARV" world_harv
  = (Ok [harv_tower], out_world (getSiteLocations world_harv),
     [EvFetch GET "https://data.neonscience.org/api/v0/locations/sites" None]).
Proof.
  rewrite (catalog_hit_skips_guesses "HARV" world_harv [abby_site; harv_tower]).
  - reflexivity.
  - discriminate.
  - vm_compute. reflexivity.
  - vm_compute. discriminate.
Defined.

Lemma costs_site_search (site : string) :
  site <> "SRER" -> costs 21 (findTowersAtSite site).
Proof.
  intros Hsite. unfold findTowersAtSite. apply (costs_try_catch 21 0).
  - apply (costs_bind 0 21).
    + unfold srer_shortcut.
      destruct (String.eqb_spec site "SRER"); [contradiction | apply costs_ret].
    + intros [tower |].
      * eapply costs_weaken; [apply costs_ret | lia].
      * unfold catalog_search.
        apply (costs_bind 3 18); [apply costs_getSiteLocations |].
        intros locs. destruct (_ =? _)%nat.
        -- apply (costs_guess_towers site (possibleTowerNames site)).
        -- eapply costs_weaken; [apply costs_ret | lia].
  - intros e w. unfold fetch_count. simpl. lia.
Qed.

(** X17. The cost of a site search: [findTowersAtSite] makes at most 24
    outbound calls (the shortcut lookup, the catalog fetch and six guessed
    names, of at most three attempts each), at most 21 for a site other
    than SRER, and each of them is a GET of the catalog or of the by-name
    lookup of a guessed tower name of that site. *)
Theorem findTowersAtSite_calls (site : string) (w : World) :
  (fetch_count (out_events (findTowersAtSite site w)) <= 24)%nat
  /\ (site <> "SRER" ->
      (fetch_count (out_events (findTowersAtSite site w)) <= 21)%nat)
  /\ Forall (calls (site_url site)) (out_events (findTowersAtSite site w)).
Proof.
  split; [apply costs_findTowersAtSite |].
  split; [intros Hsite; apply costs_site_search, Hsite |].
  apply emits_findTowersAtSite.
Qed.

Lemma findTowersAtSite_calls_witness :
  (fetch_count (out_events (findTowersAtSite "ABBY" world_down)) <= 21)%nat.
Proof.
  apply (findTowersAtSite_calls "ABBY" world_down). discriminate.
Defined.

Lemma per_site_towers_sound :
  forall sites w,
    Forall (fun t => exists s, In s sites /\ siteCode t = siteCode s)
           (List.concat (per_site_towers sites w)).
Proof.
  induction sites as [| s sites IH]; intros w; cbn [per_site_towers List.concat].
  - constructor.
  - apply Forall_app. split.
    + destruct (out_result (findTowersAtSite (siteCode s) w)) as [towers | e]
        eqn:Hres; [| constructor].
      destruct (findTowersAtSite_sound (siteCode s) w I) as [_ Hpost].
      eapply Forall_impl; [apply Hpost, Hres |].
      intros t Ht. exists s. split; [left; reflexivity | exact Ht].
    + eapply Forall_impl; [apply IH |].
      intros t (s' & Hin & Ht). exists s'. split; [right; exact Hin | exact Ht].
Qed.

(** X18. The cross-site search only returns structures of the sites it
    visited: every location returned by [searchLocationsByType] without a
    site code has the site code of one of the first 10 entries of the
    catalog it fetched. *)
Theorem cross_site_results_from_first_ten (ty : string) (w : World)
    (catalog found : list Location) :
  out_result (getSiteLocations w) = Ok catalog ->
  out_result (searchLocationsByType ty None w) = Ok found ->
  Forall (fun t => exists s, In s (firstn 10 catalog)
                             /\ siteCode t = siteCode s) found.
Proof.
  intros Hcatalog Hfound.
  change (searchLocationsByType ty None w) with (cross_site_search w) in Hfound.
  unfold cross_site_search in Hfound.
  rewrite try_catch_run, bind_run, Hcatalog in Hfound.
  cbn [out_result out_world out_events fst snd] in Hfound.
  rewrite search_sites_result in Hfound.
  cbn [out_result fst] in Hfound. inversion Hfound; subst found.
  apply per_site_towers_sound.
Qed.

Lemma cross_site_results_from_first_ten_witness :
  Forall (fun t => exists s, In s (firstn 10 [abby_site; harv_tower])
                             /\ siteCode t = siteCode s)
         [harv_tower].
Proof.
  apply (cross_site_results_from_first_ten "TOWER" world_harv
           [abby_site; harv_tower] [harv_tower]).
  - vm_compute. reflexivity.
  - vm_compute. reflexivity.
Defined.

(** * The data tool's use of the query planner *)

(** X19. In the parameters [handleDataTool] builds, a given [siteCode]
    wins over [siteCodes]: the list is not passed on, so [queryData] sends
    a GET for that one site however many sites the list names. Without a
    [siteCode], a list of more than one site makes every outbound call of
    the query the POST with these parameters. In every case the keys of
    the object are distinct and [siteCodes] is absent or an array. *)
Theorem tool_siteCode_wins (validated : DataQueryInput) (w : World) :
  let params := tool_queryParams validated in
  wf_object params
  /\ siteCodes_typed params
  /\ (forall s, in_siteCode validated = Some s -> s <> "" ->
        get_prop params "siteCode" = JStr s
        /\ get_prop params "siteCodes" = JUndefined
        /\ Forall (fun ev => is_fetch ev = true ->
                             ev = EvFetch GET
                                    (request_url query_endpoint (Some params))
                                    None)
                  (out_events (queryData params w)))
  /\ (forall sites, str_truthy (in_siteCode validated) = false ->
        in_siteCodes validated = Some sites ->
        (1 < List.length sites)%nat ->
        get_prop params "siteCode" = JUndefined
        /\ Forall (fun ev => is_fetch ev = true ->
                             ev = EvFetch POST (baseUrl +:+ query_endpoint)
                                          (Some params))
                  (out_events (queryData params w))).
Proof.
  cbv zeta.
  assert (Hbase : wf_object
            [ ("productCode", JStr (in_productCode validated));
              ("startDateMonth", JStr (in_startDateMonth validated));
              ("endDateMonth", JStr (in_endDateMonth validated));
              ("package", opt_string (in_package validated));
              ("release", opt_string (in_release validated));
              ("includeProvisional",
               opt_bool (in_includeProvisional validated)) ]).
  { unfold wf_object. cbn [fmap list_fmap fst].
    repeat (apply NoDup_cons; split;
            [rewrite ?elem_of_cons, elem_of_nil; intros Hin;
             repeat (destruct Hin as [Hin | Hin]; [discriminate Hin |]);
             exact Hin |]).
    apply NoDup_nil_2. }
  split; [| split; [| split]].
  - unfold tool_queryParams. destruct (str_truthy (in_siteCode validated)).
    + apply wf_set_prop, Hbase.
    + destruct (in_siteCodes validated); [apply wf_set_prop |]; exact Hbase.
  - unfold siteCodes_typed, tool_queryParams.
    destruct (str_truthy (in_siteCode validated)).
    + left. reflexivity.
    + destruct (in_siteCodes validated) as [sites |].
      * right. eexists. reflexivity.
      * left. reflexivity.
  - intros s Hs Hne.
    assert (Htruthy : str_truthy (in_siteCode validated) = true).
    { rewrite Hs. cbn. destruct (String.eqb_spec s ""); [contradiction |].
      reflexivity. }
    assert (Hparams : tool_queryParams validated
              = set_prop
                  [ ("productCode", JStr (in_productCode validated));
                    ("startDateMonth", JStr (in_startDateMonth validated));
                    ("endDateMonth", JStr (in_endDateMonth validated));
                    ("package", opt_string (in_package validated));
                    ("release", opt_string (in_release validated));
                    ("includeProvisional",
                     opt_bool (in_includeProvisional validated)) ]
                  "siteCode" (JStr s)).
    { unfold tool_queryParams. rewrite Htruthy, Hs. reflexivity. }
    assert (Hnone : get_prop (tool_queryParams validated) "siteCodes"
                    = JUndefined) by (rewrite Hparams; reflexivity).
    split; [rewrite Hparams; reflexivity |]. split; [exact Hnone |].
    assert (Hsingle : queryData (tool_queryParams validated) w
              = makeRequest query_endpoint (Some (tool_queryParams validated))
                  true (Some (30 * 60 * 1000)%Z) w).
    { unfold queryData, multiple_sites, single_site_params.
      rewrite Hnone. reflexivity. }
    rewrite Hsingle. apply makeRequest_all_GET.
  - intros sites Hfalsy Hsites Hlen.
    assert (Hparams : tool_queryParams validated
              = set_prop
                  [ ("productCode", JStr (in_productCode validated));
                    ("startDateMonth", JStr (in_startDateMonth validated));
                    ("endDateMonth", JStr (in_endDateMonth validated));
                    ("package", opt_string (in_package validated));
                    ("release", opt_string (in_release validated));
                    ("includeProvisional",
                     opt_bool (in_includeProvisional validated)) ]
                  "siteCodes" (JArr (List.map JStr sites))).
    { unfold tool_queryParams. rewrite Hfalsy, Hsites. reflexivity. }
    split; [rewrite Hparams; reflexivity |].
    assert (Hmulti : multiple_sites (tool_queryParams validated) = true).
    { unfold multiple_sites. rewrite Hparams.
      change (get_prop _ "siteCodes") with (JArr (List.map JStr sites)).
      cbn [truthy js_length andb]. rewrite length_map.
      apply Nat.ltb_lt, Hlen. }
    destruct (queryData_POST_events _ w Hmulti) as [Hev | Hev]; rewrite Hev.
    + constructor.
    + constructor; [reflexivity | constructor].
Qed.

Lemma tool_siteCode_wins_witness :
  get_prop (tool_queryParams input_site_and_list) "siteCodes" = JUndefined
  /\ out_events (queryData (tool_queryParams input_site_and_list) world_query)
     = [EvFetch GET
          ("https://data.neonscience.org/api/v0/data/query"
           +:+ "?productCode=DP1.10003.001&startDateMonth=2020-01"
           +:+ "&endDateMonth=2020-12&siteCode=HARV")
          None].
Proof.
  destruct (tool_siteCode_wins input_site_and_list world_query)
    as (_ & _ & Hsite & _).
  destruct (Hsite "HARV") as (_ & Hnone & _).
  - reflexivity.
  - discriminate.
  - split; [exact Hnone | reflexivity].
Defined.

(** * Recovery and URL building *)

(** X20. Transient failures are recovered from: when nothing is taken
    from the cache, the first [i] replies ([i] at most 2) are failures not
    taken for client errors and the next reply is a success, [makeRequest]
    returns the data of that reply after exactly [i + 1] attempts, having
    waited 1000 ms, then 2000 ms, between them. *)
Theorem retry_recovers (endpoint : string) (params : option JsObject)
    (cacheEnabled : bool) (cacheTtl : option Z) (w : World) (i : nat)
    (d : Payload) :
  let out := makeRequest endpoint params cacheEnabled cacheTtl w in
  cache_hit endpoint params cacheEnabled w = None ->
  (i < 3)%nat ->
  (forall j, (j < i)%nat ->
     exists e, attempt_outcome (remote w (served w + j)%nat) = Throw e
               /\ client_error e = false) ->
  attempt_outcome (remote w (served w + i)%nat) = Ok d ->
  out_result out = Ok d
  /\ out_events out = attempts_trace (request_url endpoint params) 0 (S i)
  /\ delays (out_events out)
     = List.map (fun k => (retryDelay * Z.of_nat k)%Z) (seq 1 i).
Proof.
  cbv zeta. intros Hmiss Hi Hfail Hok.
  destruct (makeRequest_run endpoint params cacheEnabled cacheTtl w)
    as [(v & Hv & _) | (_ & n & Hn & _ & _ & Hev & Hprev & Hres)].
  { rewrite Hmiss in Hv. discriminate Hv. }
  unfold retryAttempts in Hn, Hres.
  assert (Hsi : n = S i).
  { destruct (Nat.lt_trichotomy n (S i)) as [Hlt | [Heq | Hgt]];
      [| exact Heq |].
    - destruct (Hfail (n - 1)%nat ltac:(lia)) as (e & He & Hce).
      replace (served w + (n - 1))%nat with (served w + n - 1)%nat in He by lia.
      rewrite He in Hres.
      destruct (out_result _) as [d' | e']; [discriminate Hres |].
      destruct Hres as [Hres [Hc | Hlast]]; [| lia].
      inversion Hres; subst e'. congruence.
    - destruct (Hprev i ltac:(lia)) as (e & He & _).
      rewrite Hok in He. discriminate He. }
  subst n. replace (served w + S i - 1)%nat with (served w + i)%nat in Hres
    by lia.
  rewrite Hok in Hres. split; [| split].
  - destruct (out_result _) as [d' | e']; [congruence |].
    destruct Hres as [Hres _]. discriminate Hres.
  - exact Hev.
  - rewrite Hev, delays_attempts_trace. cbn [Nat.sub]. rewrite Nat.sub_0_r.
    reflexivity.
Qed.

Lemma retry_recovers_witness :
  out_events (getSites None world_flaky)
  = [ EvFetch GET sites_url None; EvSleep 1000; EvFetch GET sites_url None ].
Proof.
  destruct (retry_recovers "/api/v0/sites" None true None world_flaky 1
              (PJson (JArr [JObj [("siteCode", JStr "HARV")]])))
    as (_ & Hev & _).
  - reflexivity.
  - lia.
  - intros j Hj. assert (j = 0)%nat as -> by lia.
    exists (api_error (JStr "Service Unavailable") (JNum 503)).
    split; reflexivity.
  - reflexivity.
  - exact Hev.
Defined.

Lemma searchParams_drop_nullish (params : JsObject) :
  searchParams (drop_nullish params) = searchParams params.
Proof.
  unfold searchParams, drop_nullish, Object_entries.
  induction params as [| [k v] params IH]; [reflexivity |].
  cbn [List.filter flat_map snd fst].
  destruct v; cbn [flat_map snd fst app]; rewrite ?IH; reflexivity.
Qed.

(** X21. Building the URL, [makeRequest] passes over the parameters whose
    value is [undefined] or [null]: the query string is that of the
    remaining parameters. As the question mark is added for any non-empty
    parameter object, an object that holds nothing but such parameters
    gives the URL of the endpoint followed by a bare [?], while no object
    or an empty one gives the URL of the endpoint itself. *)
Theorem request_url_skips_nullish (endpoint : string) (params : JsObject) :
  (drop_nullish params <> [] ->
     request_url endpoint (Some params)
     = request_url endpoint (Some (drop_nullish params)))
  /\ (params <> [] -> drop_nullish params = [] ->
        request_url endpoint (Some params) = baseUrl +:+ endpoint +:+ "?")
  /\ request_url endpoint (Some []) = baseUrl +:+ endpoint
  /\ request_url endpoint None = baseUrl +:+ endpoint.
Proof.
  split; [| split; [| split; reflexivity]].
  - intros Hsome. unfold request_url.
    rewrite searchParams_drop_nullish.
    destruct (drop_nullish params) as [| p ps] eqn:Hdrop; [contradiction |].
    destruct params as [| q qs]; [discriminate Hdrop |]. reflexivity.
  - intros Hne Hnone. unfold request_url.
    rewrite <- searchParams_drop_nullish, Hnone.
    destruct params as [| q qs]; [contradiction |]. reflexivity.
Qed.

Lemma request_url_skips_nullish_witness :
  request_url "/api/v0/taxonomy" (Some [("family", JUndefined)])
  = "https://data.neonscience.org/api/v0/taxonomy?".
Proof.
  destruct (request_url_skips_nullish "/api/v0/taxonomy"
              [("family", JUndefined)]) as (_ & Hbare & _).
  rewrite Hbare; [reflexivity | discriminate | reflexivity].
Defined.
